(** * The batch text-normalisation pipeline of [app.py]

    A shallow embedding of the job extractor, the chunker, the response
    reconciler and the merge-back step of the Streamlit application
    [src/app.py], with the properties its specification states about them.

    Python values are modelled as follows.
    - A [str] is the list of its Unicode code points ([pystr]).
    - A [dict] is a [gmap]; a list is a [list].
    - The call to the text-generation service is an oracle: it either
      raises or returns a completion whose content may be [None].
    - [st.warning], [st.error], [status_text.text] and [prog_bar.progress]
      append to an event log. *)

From Stdlib Require Import NArith ZArith List Lia.
From Stdlib Require Import Strings.String Strings.Ascii.
From stdpp Require Import base decidable option list sorting gmap.

(** ** Python strings *)

Module PyStr.

Local Open Scope N_scope.

Definition pystr : Type := list N.

(** The code points of a string literal. *)
Definition lit (s : String.string) : pystr :=
  fmap Ascii.N_of_ascii (String.list_ascii_of_string s).

Definition LF : N := 10.
Definition CR : N := 13.
Definition SPACE : N := 32.

(** [str.isspace] of one code point, the test behind [str.strip()] and
    the regular expression class [\s]: the code points that CPython's
    [_PyUnicode_IsWhitespace] accepts. *)
Definition is_space (c : N) : bool :=
  ((9 <=? c) && (c <=? 13)) || ((28 <=? c) && (c <=? 32))
  || (c =? 133) || (c =? 160) || (c =? 5760)
  || ((8192 <=? c) && (c <=? 8202))
  || (c =? 8232) || (c =? 8233) || (c =? 8239) || (c =? 8287)
  || (c =? 12288).

(** The line boundaries of [str.splitlines()]
    (CPython's [_PyUnicode_IsLinebreak]). *)
Definition is_linebreak (c : N) : bool :=
  ((10 <=? c) && (c <=? 13)) || ((28 <=? c) && (c <=? 30))
  || (c =? 133) || (c =? 8232) || (c =? 8233).

Fixpoint lstrip (s : pystr) : pystr :=
  match s with
  | c :: r => if is_space c then lstrip r else s
  | [] => []
  end.

Definition rstrip (s : pystr) : pystr := reverse (lstrip (reverse s)).

(** [s.strip()] *)
Definition strip (s : pystr) : pystr := rstrip (lstrip s).

(** [str.lower()] of one code point.  The letters A-Z map to a-z.
    Outside ASCII only two code points have a lower case that contains
    an ASCII letter: U+212A KELVIN SIGN (k) and U+0130 (i followed by
    U+0307).  Every other code point lower-cases to code points outside
    ASCII and is kept as it is: the program compares lower-cased text
    with ASCII tokens only. *)
Definition lower_cp (c : N) : list N :=
  if (65 <=? c) && (c <=? 90) then [c + 32]
  else if c =? 8490 then [107]
  else if c =? 304 then [105; 775]
  else [c].

(** [s.lower()] *)
Definition lower (s : pystr) : pystr := flat_map lower_cp s.

Definition eqb (s t : pystr) : bool := bool_decide (s = t).

(** [s.startswith(p)] *)
Fixpoint startswith (s p : pystr) {struct p} : bool :=
  match p, s with
  | [], _ => true
  | a :: p', b :: s' => (a =? b) && startswith s' p'
  | _ :: _, [] => false
  end.

(** [s.endswith(p)] *)
Definition endswith (s p : pystr) : bool := startswith (reverse s) (reverse p).

(** [s[:-k]] for a positive [k]. *)
Definition drop_last (k : nat) (s : pystr) : pystr :=
  take (length s - k)%nat s.

(** [s.splitlines()]: [acc] holds the current line, reversed.  A
    carriage return directly followed by a line feed is one boundary;
    text after the last boundary is a line only when it is not empty. *)
Fixpoint splitlines_from (acc s : pystr) : list pystr :=
  match s with
  | [] => match acc with [] => [] | _ => [reverse acc] end
  | c :: r =>
      if is_linebreak c then
        reverse acc ::
          match r with
          | d :: r' =>
              if (c =? CR) && (d =? LF) then splitlines_from [] r'
              else splitlines_from [] r
          | [] => splitlines_from [] r
          end
      else splitlines_from (c :: acc) r
  end.

Definition splitlines (s : pystr) : list pystr := splitlines_from [] s.

(** [s.replace(a, b)] for one-character [a] and [b]. *)
Definition replace_cp (a b : N) (s : pystr) : pystr :=
  fmap (fun c => if c =? a then b else c) s.

(** [sep.join(parts)] *)
Fixpoint join (sep : pystr) (parts : list pystr) : pystr :=
  match parts with
  | [] => []
  | [p] => p
  | p :: ps => p ++ sep ++ join sep ps
  end.

End PyStr.

Import PyStr.

(** ** The two regular expressions of the reconciler *)

Module Re.

Local Open Scope N_scope.

(** A literal character of a pattern compiled with [re.IGNORECASE]
    matches itself, its upper-case ASCII letter and, for [s], U+017F
    LATIN SMALL LETTER LONG S.  (The letters [k] and [i], which have
    further matches, occur in neither pattern of the program.) *)
Definition ic_match (p c : N) : bool :=
  (c =? p) || (c + 32 =? p) && (65 <=? c) && (c <=? 90)
  || (p =? 115) && (c =? 383).

(** Matches the literal [p] at the start of [s], ignoring case; gives
    the text after it. *)
Fixpoint literal_ic (p s : pystr) : option pystr :=
  match p, s with
  | [], _ => Some s
  | a :: p', c :: s' => if ic_match a c then literal_ic p' s' else None
  | _ :: _, [] => None
  end.

(** Matches [\s*\n] at the start of [s]; gives the text after the
    match.  The star is greedy: it first takes [c] as whitespace and
    goes on, and only when the rest cannot match does it stop before
    [c], which then has to be the line feed. *)
Fixpoint ws_star_nl (s : pystr) : option pystr :=
  match s with
  | [] => None
  | c :: r =>
      if is_space c then
        match ws_star_nl r with
        | Some t => Some t
        | None => if c =? LF then Some r else None
        end
      else None
  end.

(** [re.sub("^" + p + "\s*\n", "", s, flags=re.IGNORECASE)].  Without
    [re.MULTILINE] the anchor matches at the start of the text only, so
    at most one match is replaced. *)
Definition sub_leading (p s : pystr) : pystr :=
  match literal_ic p s with
  | Some r => match ws_star_nl r with Some t => t | None => s end
  | None => s
  end.

End Re.

(** ** Events shown to the user

    [st.warning], [st.error], [status_text.text] and [prog_bar.progress]
    of the correction loop, in the order the program issues them. *)

Inductive event : Type :=
  | Status_chunk (column sheet : pystr) (i_chunk total : nat)
  | Warn_unknown_type (column_type : pystr)
  | Warn_empty_response (i_chunk : nat)
  | Warn_length_mismatch (i_chunk expected got : nat)
  | Err_ai (i_chunk : nat)
  | Progress (done total : nat)
  | Err_index_out_of_bounds (idx : Z)
  | Err_setting_value (idx : Z)
  | Err_length_mismatch (n_indices n_corrected : nat)
  | Err_no_jobs
  | Info_no_values
  | Status_starting.

(** ** Response reconciler (the body of the [try] block) *)

Definition FENCE : pystr := lit "```".
Definition FENCE_CSV : pystr := lit "```csv".

(** Line 549: a leading fence annotated [csv]. *)
Definition strip_leading_csv_fence (llm_output_text : pystr) : pystr :=
  if startswith (lower llm_output_text) FENCE_CSV
  then Re.sub_leading FENCE_CSV llm_output_text else llm_output_text.

(** Line 550: a leading bare fence. *)
Definition strip_leading_fence (llm_output_text : pystr) : pystr :=
  if startswith (lower llm_output_text) FENCE
  then Re.sub_leading FENCE llm_output_text else llm_output_text.

(** Line 551: a trailing fence. *)
Definition strip_trailing_fence (llm_output_text : pystr) : pystr :=
  if endswith llm_output_text FENCE
  then strip (drop_last 3 llm_output_text) else llm_output_text.

(** Lines 548-551: trims the completion and removes code fences around it. *)
Definition strip_fences (content : pystr) : pystr :=
  strip_trailing_fence
    (strip_leading_fence (strip_leading_csv_fence (strip content))).

(** Line 555: the lines that are data rows, before they are trimmed. *)
Definition data_lines (column_type : pystr) (lines : list pystr) : list pystr :=
  match lines with
  | l0 :: rest => if eqb (lower (strip l0)) column_type then rest else lines
  | [] => lines
  end.

(** Lines 553-555. *)
Definition parsed_list_from_llm (column_type llm_output_text : pystr)
  : list pystr :=
  fmap strip (data_lines column_type (splitlines llm_output_text)).

Definition is_nil {A} (l : list A) : bool :=
  match l with [] => true | _ => false end.

(** Lines 557-559: an empty answer for a non-empty chunk is replaced by a
    copy of the chunk. *)
Definition empty_fallback (i_chunk : nat) (chunk parsed : list pystr)
  : list pystr * list event :=
  if is_nil parsed && negb (is_nil chunk)
  then (chunk, [Warn_empty_response i_chunk])
  else (parsed, []).

(** Lines 561-569: truncation and padding to the length of the chunk. *)
Definition fit_length (i_chunk : nat) (chunk parsed : list pystr)
  : list pystr * list event :=
  let expected_len := length chunk in
  if Nat.eqb (length parsed) expected_len then (parsed, [])
  else
    (if Nat.ltb expected_len (length parsed)
     then take expected_len parsed
     else parsed ++ drop (length parsed) chunk,
     [Warn_length_mismatch i_chunk expected_len (length parsed)]).

(** Lines 548-570 for a completion whose content is the text [content]:
    the values appended to the job's corrected values, and the warnings. *)
Definition reconcile (column_type : pystr) (i_chunk : nat)
    (chunk : list pystr) (content : pystr) : list pystr * list event :=
  let parsed := parsed_list_from_llm column_type (strip_fences content) in
  let (parsed1, w1) := empty_fallback i_chunk chunk parsed in
  let (parsed2, w2) := fit_length i_chunk chunk parsed1 in
  (parsed2, w1 ++ w2).

(** What [openai.chat.completions.create] does: it raises, or it returns
    a completion whose message content is a string or [None]. *)
Inductive completion : Type :=
  | Raises
  | Returns (content : option pystr).

(** Lines 546-573: the [try] block and its handler.  Calling [.strip()]
    on a [None] content raises inside the block, and nothing has been
    appended at that point. *)
Definition correct_chunk (column_type : pystr) (i_chunk : nat)
    (chunk : list pystr) (response : completion) : list pystr * list event :=
  match response with
  | Returns (Some content) => reconcile column_type i_chunk chunk content
  | Returns None | Raises => (chunk, [Err_ai i_chunk])
  end.

(** ** Chunker *)

Definition CHUNK_BRAND : nat := 70.
Definition CHUNK_DESCRIPTION : nat := 30.

Definition BRAND : pystr := lit "brand".
Definition DESCRIPTION : pystr := lit "description".

(** [CHUNK_BRAND if column_type == 'brand' else CHUNK_DESCRIPTION] *)
Definition chunk_size (column_type : pystr) : nat :=
  if eqb column_type BRAND then CHUNK_BRAND else CHUNK_DESCRIPTION.

(** [range(start, stop, step)] for a positive [step], as the iteration it
    stands for; [fuel] bounds the number of elements. *)
Fixpoint range_from (fuel start stop step : nat) : list nat :=
  match fuel with
  | O => []
  | S fuel' =>
      if Nat.ltb start stop
      then start :: range_from fuel' (start + step) stop step
      else []
  end.

(** [range(0, stop, step)]: [stop] elements at most, as [step >= 1]. *)
Definition py_range (stop step : nat) : list nat :=
  range_from stop 0 stop step.

(** [l[a:b]] for [0 <= a <= b]. *)
Definition slice {A} (l : list A) (a b : nat) : list A :=
  take (b - a) (drop a l).

(** Lines 529-530: the chunk that starts at [start_index_chunk]. *)
Definition chunk_at (values : list pystr) (size start_index_chunk : nat)
  : list pystr :=
  let end_index_chunk :=
    Nat.min (start_index_chunk + size) (length values) in
  slice values start_index_chunk end_index_chunk.

(** The chunks of line 528, in the order of the loop. *)
Definition chunks (values : list pystr) (size : nat) : list (list pystr) :=
  fmap (chunk_at values size) (py_range (length values) size).

(** [math.ceil(n / d)] for a positive [d]. *)
Definition ceil_div (n d : nat) : nat := (n + d - 1) / d.

(** Line 532: one value per line, line ends inside a value blanked. *)
Definition csv_data_for_prompt (chunk : list pystr) : pystr :=
  join [LF]
    (fmap (fun val => replace_cp CR SPACE (replace_cp LF SPACE val)) chunk).

(** ** Tables and jobs *)

(** A cell is missing ([NaN], [None]) or holds a value, kept as the
    string that [str] gives for it. *)
Inductive cell : Type :=
  | NA
  | Val (s : pystr).

#[global] Instance cell_eq_dec : EqDecision cell.
Proof. solve_decision. Defined.

(** A [DataFrame]: its column labels and its rows in order, each with
    its index label.  [pd.read_excel] numbers the rows 0, 1, 2, ... and
    the pre-processing only drops rows, so the labels of a table of this
    program are distinct and ascending ([df_wf]). *)
Record DataFrame : Type := {
  df_columns : list pystr;
  df_rows : list (Z * gmap pystr cell)
}.

Definition df_index (df : DataFrame) : list Z := (df_rows df).*1.

Definition df_wf (df : DataFrame) : Prop :=
  StronglySorted Z.lt (df_index df).

Definition row_cell (col : pystr) (r : gmap pystr cell) : cell :=
  default NA (r !! col).

(** [df[col]]: the cells of a column, one per row. *)
Definition column (df : DataFrame) (col : pystr) : list (Z * cell) :=
  fmap (fun '(i, r) => (i, row_cell col r)) (df_rows df).

(** [.notna()] and [.astype(str)] on one cell. *)
Definition notna (c : cell) : bool :=
  match c with NA => false | Val _ => true end.

Definition astype_str (c : cell) : pystr :=
  match c with NA => lit "nan" | Val s => s end.

(** Lines 488 and 494: the mask of the rows sent for correction. *)
Definition mask (c : cell) : bool :=
  notna c && negb (eqb (strip (astype_str c)) []).

(** [df.loc[indices, col]]: for each label, the cells of the rows that
    carry it. *)
Definition loc (df : DataFrame) (indices : list Z) (col : pystr)
  : list cell :=
  flat_map
    (fun i => fmap snd
                (List.filter (fun ic => Z.eqb ic.1 i) (column df col)))
    indices.

(** [df.at[idx, col] = v] *)
Definition at_set (df : DataFrame) (idx : Z) (col : pystr) (v : pystr)
  : DataFrame :=
  {| df_columns := df_columns df;
     df_rows := List.map
                  (fun '(i, r) =>
                     if Z.eqb i idx then (i, <[col := Val v]> r) else (i, r))
                  (df_rows df) |}.

(** [df.at[idx, col]] read back, for a label that one row carries. *)
Definition cell_at (df : DataFrame) (idx : Z) (col : pystr) : option cell :=
  row_cell col <$> (snd <$> List.find (fun ir => Z.eqb ir.1 idx) (df_rows df)).

(** Lines 49-55. *)
Definition get_actual_column_name (df_columns : list pystr)
    (target_name : pystr) : option pystr :=
  List.find (fun col => eqb (lower (strip col)) (lower target_name)) df_columns.

Record Job : Type := {
  sheet : pystr;
  column_name : pystr;
  column_type : pystr;
  indices : list Z;
  values : list pystr
}.

(** Lines 486-497 for one logical column: [if col_name_actual:] is false
    for [None] and for the empty string, [if indices:] for no index. *)
Definition column_job (sheet_name : pystr) (df : DataFrame)
    (target : pystr) : list Job :=
  match get_actual_column_name (df_columns df) target with
  | Some col =>
      if is_nil col then []
      else
        let indices :=
          fmap fst (List.filter (fun ic => mask ic.2) (column df col)) in
        if is_nil indices then []
        else [ {| sheet := sheet_name; column_name := col;
                  column_type := target; indices := indices;
                  values := fmap astype_str (loc df indices col) |} ]
  | None => []
  end.

(** Lines 482-497. *)
Definition sheet_jobs (sheet_name : pystr) (df : DataFrame) : list Job :=
  column_job sheet_name df BRAND ++ column_job sheet_name df DESCRIPTION.

Definition extract_jobs (workbook_items : list (pystr * DataFrame))
  : list Job :=
  flat_map (fun '(sheet_name, df) => sheet_jobs sheet_name df) workbook_items.

(** ** Pipeline orchestrator *)

(** The state of the correction phase: the workbook, the number of chunks
    done and the events shown so far. *)
Record RunState : Type := {
  workbook : gmap pystr DataFrame;
  chunks_done : nat;
  log : list event
}.

(** Whether [df.at[idx, col] = v] raises.  The store of a text depends
    on the dtype that pandas gave the column and on the pandas release:
    a column read as numbers refuses a text from pandas 3 on, where
    earlier releases convert the column.  The table model holds neither,
    so the outcome is a parameter of the write-back. *)
Definition at_oracle : Type := DataFrame -> Z -> pystr -> pystr -> bool.

(** Lines 580-587: one step of the write-back loop.  A label that the
    table lacks is reported and skipped (lines 581-583); a store that
    raises is caught and reported, and the table stays as it was (lines
    584-587). *)
Definition write_back_step (at_raises : at_oracle) (column_name_job : pystr)
    (acc : DataFrame * list event) (iv : Z * pystr) : DataFrame * list event :=
  let '(df_target, evs) := acc in
  let '(idx_val, corrected_val) := iv in
  if bool_decide (idx_val ∈ df_index df_target)
  then
    if at_raises df_target idx_val column_name_job corrected_val
    then (df_target, evs ++ [Err_setting_value idx_val])
    else (at_set df_target idx_val column_name_job corrected_val, evs)
  else (df_target, evs ++ [Err_index_out_of_bounds idx_val]).

(** Lines 580-587: [for idx_val, corrected_val in zip(...)]. *)
Definition write_back (at_raises : at_oracle) (column_name_job : pystr)
    (df_target : DataFrame)
    (indices_to_update : list Z) (corrected : list pystr)
  : DataFrame * list event :=
  fold_left (write_back_step at_raises column_name_job)
    (zip indices_to_update corrected) (df_target, []).

Section Orchestrator.

(** The two prompt templates with the run's vocabulary filled in, as
    functions of the [csv_data] field. *)
Variables PROMPT_TEMPLATE_BRAND PROMPT_TEMPLATE_DESCRIPTION : pystr -> pystr.

(** The text-generation service.  Its answer is not a function of the
    prompt alone: the oracle also gets the number of chunks done before
    the request, which identifies the request within the run. *)
Variable create_completion : nat -> pystr -> completion.

(** Line 504. *)
Variable chunks_total : nat.

(** The outcome of the stores of the write-back. *)
Variable at_raises : at_oracle.

(** The corrected values of the job so far, the count of chunks done
    and the events. *)
Definition LoopState : Type := list pystr * nat * list event.

(** Lines 534-544: the prompt for a chunk; a job of another kind than
    brand and description gets none, and its chunk is kept as it is. *)
Definition prompt_to_use (column_type_job csv_data : pystr) : option pystr :=
  if eqb column_type_job BRAND
  then Some (PROMPT_TEMPLATE_BRAND csv_data)
  else if eqb column_type_job DESCRIPTION
       then Some (PROMPT_TEMPLATE_DESCRIPTION csv_data)
       else None.

(** Lines 529-576: the body of the loop over the chunks of a job. *)
Definition chunk_step (job_info : Job) (total_chunks_for_job : nat)
    (st : LoopState) (it : nat * nat) : LoopState :=
  let '(corrected, done, evs) := st in
  let '(i_chunk, start_index_chunk) := it in
  let size := chunk_size (column_type job_info) in
  let chunk := chunk_at (values job_info) size start_index_chunk in
  let evs1 :=
    evs ++ [Status_chunk (column_name job_info) (sheet job_info)
              i_chunk total_chunks_for_job] in
  match prompt_to_use (column_type job_info) (csv_data_for_prompt chunk) with
  | None =>
      (corrected ++ chunk, S done,
       evs1 ++ [Warn_unknown_type (column_type job_info);
                Progress (S done) chunks_total])
  | Some prompt =>
      let (vals, evs2) :=
        correct_chunk (column_type job_info) i_chunk chunk
          (create_completion done prompt) in
      (corrected ++ vals, S done,
       evs1 ++ evs2 ++ [Progress (S done) chunks_total])
  end.

(** Line 528: [enumerate(range(0, len(values), size), start=1)]. *)
Definition enumerate_from_1 (l : list nat) : list (nat * nat) :=
  zip (seq 1 (length l)) l.

(** Lines 526-576: all chunks of a job, from no corrected value. *)
Definition correct_job (job_info : Job) (done : nat) (evs : list event)
  : LoopState :=
  let size := chunk_size (column_type job_info) in
  let total_chunks_for_job := ceil_div (length (values job_info)) size in
  fold_left (chunk_step job_info total_chunks_for_job)
    (enumerate_from_1 (py_range (length (values job_info)) size))
    ([], done, evs).

(** Lines 578-589: the guarded write-back.  [workbook[sheet]] raises
    [KeyError] for an unknown sheet, which ends the run ([None]). *)
Definition merge_back (job_info : Job) (corrected : list pystr)
    (st : RunState) : option RunState :=
  if Nat.eqb (length (indices job_info)) (length corrected) then
    match workbook st !! sheet job_info with
    | Some df_target =>
        let (df', evs) :=
          write_back at_raises (column_name job_info) df_target
            (indices job_info) corrected in
        Some {| workbook := <[sheet job_info := df']> (workbook st);
                chunks_done := chunks_done st;
                log := log st ++ evs |}
    | None => None
    end
  else
    Some {| workbook := workbook st;
            chunks_done := chunks_done st;
            log := log st ++ [Err_length_mismatch
                                (length (indices job_info))
                                (length corrected)] |}.

(** Lines 514-589: one job.  A job without values is skipped. *)
Definition process_job (job_info : Job) (st : RunState) : option RunState :=
  if is_nil (values job_info) then Some st
  else
    let '(corrected, done, evs) :=
      correct_job job_info (chunks_done st) (log st) in
    merge_back job_info corrected
      {| workbook := workbook st; chunks_done := done; log := evs |}.

(** Line 514: [for job_info in jobs]; [None] is a run ended by an
    exception that reaches the outer handler. *)
Fixpoint run_jobs (jobs : list Job) (st : RunState) : option RunState :=
  match jobs with
  | [] => Some st
  | job_info :: rest =>
      match process_job job_info st with
      | Some st' => run_jobs rest st'
      | None => None
      end
  end.

End Orchestrator.

(** Line 504: the number of chunks of all jobs. *)
Definition total_chunks (jobs : list Job) : nat :=
  list_sum
    (fmap (fun job => ceil_div (length (values job))
                        (chunk_size (column_type job))) jobs).

(** Lines 482-589: the jobs of the pre-processed workbook and the
    correction of each, from no chunk done. *)
Definition correction_phase
    (PROMPT_TEMPLATE_BRAND PROMPT_TEMPLATE_DESCRIPTION : pystr -> pystr)
    (create_completion : nat -> pystr -> completion)
    (at_raises : at_oracle)
    (workbook_items : list (pystr * DataFrame)) : option RunState :=
  let jobs := extract_jobs workbook_items in
  let wb : gmap pystr DataFrame := list_to_map workbook_items in
  if is_nil jobs
  then Some {| workbook := wb; chunks_done := 0; log := [Err_no_jobs] |}
  else
    let chunks_total := total_chunks jobs in
    if Nat.eqb chunks_total 0
    then Some {| workbook := wb; chunks_done := 0; log := [Info_no_values] |}
    else run_jobs PROMPT_TEMPLATE_BRAND PROMPT_TEMPLATE_DESCRIPTION
           create_completion chunks_total at_raises jobs
           {| workbook := wb; chunks_done := 0; log := [Status_starting] |}.

(** ** Pre-processing: the SKU filter *)

Section SkuFilter.

(** [\d] of a Unicode pattern matches the decimal digits of every script.
    Beyond ASCII they come from the Unicode tables, which the repository
    does not hold: [unicode_decimal] stands for them. *)
Variable unicode_decimal : N -> bool.

Definition is_decimal (c : N) : bool :=
  if (c <? 128)%N then (48 <=? c)%N && (c <=? 57)%N else unicode_decimal c.

(** [$] without [re.MULTILINE]: the end of the text, or the place before
    a line feed that ends the text. *)
Definition at_dollar (s : pystr) : bool :=
  match s with
  | [] => true
  | [c] => (c =? LF)%N
  | _ => false
  end.

(** [\d+$] at the start of [s]: a digit, and then more of them or [$]. *)
Fixpoint digits_dollar (s : pystr) : bool :=
  match s with
  | [] => false
  | c :: r => is_decimal c && (digits_dollar r || at_dollar r)
  end.

(** Line 446: [re.match(r'^\d+$', s)] finds a match. *)
Definition sku_is_numeric (s : pystr) : bool := digits_dollar s.

(** Line 444 on one row: the SKU cell becomes its string. *)
Definition sku_row (sku_col_name : pystr) (ir : Z * gmap pystr cell)
  : Z * gmap pystr cell :=
  (ir.1, <[sku_col_name := Val (astype_str (row_cell sku_col_name ir.2))]> ir.2).

(** Line 446 on one row: the mask [is_numeric_sku]. *)
Definition sku_keep (sku_col_name : pystr) (ir : Z * gmap pystr cell) : bool :=
  sku_is_numeric (astype_str (row_cell sku_col_name ir.2)).

(** Lines 440-450: the column is turned into strings and the rows whose
    SKU is not numeric are dropped; a table without the column is left as
    it is. *)
Definition clean_sku (df : DataFrame) : DataFrame :=
  match get_actual_column_name (df_columns df) (lit "SKU code") with
  | Some sku_col_name =>
      if is_nil sku_col_name then df
      else
        {| df_columns := df_columns df;
           df_rows := List.filter (sku_keep sku_col_name)
                        (sku_row sku_col_name <$> df_rows df) |}
  | None => df
  end.

End SkuFilter.

(** ** Final transformations: Offer, Status, Price, Caveat *)

Definition POUND : N := 163%N.

(** [p in s] for two strings. *)
Fixpoint contains (s p : pystr) : bool :=
  startswith s p
  || match s with
     | [] => false
     | _ :: r => contains r p
     end.

(** [str(row.get(col, "")).strip() if col else ""] *)
Definition cell_text (col : option pystr) (row : gmap pystr cell) : pystr :=
  match col with
  | Some c => if is_nil c then [] else strip (astype_str (row_cell c row))
  | None => []
  end.

(** Line 610: [str(x).strip() if pd.notna(x) else ""] *)
Definition offer_text (c : cell) : pystr :=
  if notna c then strip (astype_str c) else [].

(** [if col:] for the result of [get_actual_column_name]. *)
Definition truthy (col : option pystr) : option pystr :=
  match col with
  | Some c => if is_nil c then None else Some c
  | None => None
  end.

(** Lines 666-678: the price shown for a status. *)
Definition price_text (status now_val_from_row rrp_val_from_row : pystr)
  : pystr :=
  let price_val_str :=
    if (eqb status (lit "now") || eqb status (lit "only"))
       && negb (is_nil now_val_from_row)
    then now_val_from_row
    else if eqb status (lit "RRP") && negb (is_nil rrp_val_from_row)
         then rrp_val_from_row
         else [] in
  if is_nil price_val_str then [] else POUND :: price_val_str.

Definition CAVEAT_END : pystr :=
  lit "Subject to availability. Selected lines only.".

(** Lines 683-704: the caveat of a row from its brand, description,
    type, size and unit price texts. *)
Definition caveat_text (b d t s_val uom_price_val : pystr) : pystr :=
  let parts0 :=
    if negb (is_nil b) && negb (is_nil d) then [b ++ lit " " ++ d]
    else if negb (is_nil b) then [b]
    else if negb (is_nil d) then [d]
    else [] in
  let type_size_parts :=
    (if is_nil t then [] else [t]) ++ (if is_nil s_val then [] else [s_val]) in
  let parts1 :=
    parts0 ++ (if is_nil type_size_parts then []
               else [join (lit " ") type_size_parts]) in
  let parts :=
    parts1 ++ (if is_nil uom_price_val then []
               else [POUND :: uom_price_val ++ lit " per 100ml"]) in
  let caveat := join (lit ", ") (List.filter (fun p => negb (is_nil p)) parts) in
  (if is_nil caveat then caveat else caveat ++ lit ". ") ++ CAVEAT_END.

(** [df[c] = ""] on the column labels: a new column goes last. *)
Definition add_column (c : pystr) (cols : list pystr) : list pystr :=
  if bool_decide (c ∈ cols) then cols else cols ++ [c].

Section DerivedColumns.

(** [str.upper()] of one code point.  The letters a-z map to A-Z, the
    other ASCII code points and the pound sign have no case.  For the
    rest the mapping comes from the Unicode tables, which the repository
    does not hold: [unicode_upper] stands for them. *)
Variable unicode_upper : N -> list N.

Definition upper_cp (c : N) : list N :=
  if ((97 <=? c) && (c <=? 122))%N then [(c - 32)%N]
  else if ((c <? 128) || (c =? POUND))%N then [c]
  else unicode_upper c.

(** [s.upper()] *)
Definition upper (s : pystr) : pystr := flat_map upper_cp s.

(** [s.lower()] where the result is stored in a cell.  [lower] is exact
    on ASCII and keeps the other code points, which is enough to compare
    lower-cased text with the tokens of this part: they are made of ASCII
    characters and the pound sign, and no code point lower-cases to the
    pound sign.  The text a cell receives needs the lower case of every
    code point: outside ASCII it comes from the Unicode tables, for which
    [unicode_lower] stands. *)
Variable unicode_lower : N -> list N.

Definition lower_full_cp (c : N) : list N :=
  if (c <? 128)%N then lower_cp c else unicode_lower c.

Definition lower_full (s : pystr) : pystr := flat_map lower_full_cp s.

(** Lines 611-639: the offer text of a row, from the trimmed offer, the
    RRP text and the saving text. *)
Definition processed_offer
    (current_offer_str rrp_val_from_row saving_val_formatted : pystr)
  : pystr :=
  let current_offer_upper := upper current_offer_str in
  if contains current_offer_upper (lit "SAVE VS RRP")
     || contains current_offer_upper (lit "SAVE V RRP")
  then
    if is_nil saving_val_formatted then current_offer_str
    else lit "save " ++ POUND :: saving_val_formatted ++ lit " on RRP"
  else if startswith (lower current_offer_str) (lit "save ")
          && endswith current_offer_str (lit "%")
  then lit "save " ++ drop 5 current_offer_str
  else if eqb current_offer_upper (lit "SAVE")
  then
    if is_nil saving_val_formatted then current_offer_str
    else lit "save " ++ POUND :: saving_val_formatted
  else if is_nil current_offer_str
          || eqb current_offer_upper (lit "NA")
          || eqb current_offer_upper (lit "N/A")
  then
    if is_nil rrp_val_from_row then []
    else lit "RRP " ++ POUND :: rrp_val_from_row
  else
    let low := lower current_offer_str in
    let is_already_save_on_rrp :=
      startswith low (lit "save " ++ [POUND]) && contains low (lit "on rrp") in
    let is_already_save_percent :=
      startswith low (lit "save ") && endswith current_offer_str (lit "%") in
    let is_already_save_amount :=
      startswith low (lit "save " ++ [POUND])
      && negb (contains low (lit "on rrp")) in
    let is_already_rrp_amount :=
      startswith current_offer_upper (lit "RRP " ++ [POUND]) in
    if negb (is_already_save_on_rrp || is_already_save_percent
             || is_already_save_amount || is_already_rrp_amount)
    then lower_full current_offer_str
    else current_offer_str.

(** Lines 648-662: the status of a row from its offer text. *)
Definition status_to_set (current_offer_val : pystr) : pystr :=
  let current_offer_lower := lower current_offer_val in
  if startswith current_offer_lower (lit "save " ++ [POUND])
     && contains current_offer_lower (lit "on rrp")
  then lit "only"
  else if startswith current_offer_lower (lit "save ")
          && endswith current_offer_val (lit "%")
  then lit "now"
  else if startswith current_offer_lower (lit "save " ++ [POUND])
  then lit "now"
  else if contains current_offer_lower (lit "only")
  then
    if negb (startswith current_offer_lower (lit "save " ++ [POUND])
             && contains current_offer_lower (lit "on rrp"))
    then lit "only" else []
  else if startswith (upper current_offer_val) (lit "RRP")
  then lit "RRP"
  else [].

(** Lines 606-705 on one row: the Offer cell is rewritten, then the
    Status, Price and Caveat cells are set, each first to the empty
    string and then to its text, in this order. *)
Definition final_row
    (offer_col saving_col now_col rrp_col brand_col desc_col type_col
       size_col uom_col : option pystr)
    (row : gmap pystr cell) : gmap pystr cell :=
  let row1 :=
    match truthy offer_col with
    | Some oc =>
        <[oc := Val (processed_offer (offer_text (row_cell oc row))
                       (cell_text rrp_col row) (cell_text saving_col row))]>
          row
    | None => row
    end in
  let row2a := <[lit "Status" := Val []]> row1 in
  let row2 :=
    match truthy offer_col with
    | Some oc =>
        <[lit "Status" :=
            Val (status_to_set (astype_str (row_cell oc row2a)))]> row2a
    | None => row2a
    end in
  let row3a := <[lit "Price" := Val []]> row2 in
  let row3 :=
    <[lit "Price" :=
        Val (price_text (astype_str (row_cell (lit "Status") row3a))
               (cell_text now_col row3a) (cell_text rrp_col row3a))]> row3a in
  let row4a := <[lit "Caveat" := Val []]> row3 in
  <[lit "Caveat" :=
      Val (caveat_text (cell_text brand_col row4a) (cell_text desc_col row4a)
             (cell_text type_col row4a) (cell_text size_col row4a)
             (cell_text uom_col row4a))]> row4a.

(** Lines 593-707 for one sheet.  The loops set one cell per row by its
    label, which is how the rows of a table with distinct labels are
    mapped one by one. *)
Definition final_transform (df_final : DataFrame) : DataFrame :=
  let find := get_actual_column_name (df_columns df_final) in
  {| df_columns :=
       add_column (lit "Caveat")
         (add_column (lit "Price")
            (add_column (lit "Status") (df_columns df_final)));
     df_rows :=
       (fun '(i, r) =>
          (i, final_row (find (lit "Offer")) (find (lit "Saving"))
                (find (lit "Now")) (find (lit "RRP")) (find (lit "Brand"))
                (find (lit "Description")) (find (lit "Type"))
                (find (lit "Size")) (find (lit "UOM")) r))
         <$> df_rows df_final |}.

End DerivedColumns.

(** ** Vocabulary of the properties *)

(** [s] spells the lower-case token [t] in some mix of ASCII cases. *)
Definition same_ignoring_case (s t : pystr) : Prop :=
  Forall2 (fun c p => c = p \/ ((65 <= c <= 90)%N /\ (c + 32)%N = p)) s t.

(** A token of lower-case ASCII letters without [k]: the only letter
    that a code point outside ASCII lower-cases to. *)
Definition plain_token (t : pystr) : Prop :=
  Forall (fun p => (97 <= p <= 122)%N /\ p <> 107%N) t.

(** [s] spells the lower-case ASCII text [t] in some mix of cases, as
    [str.lower] has it: besides the letters A-Z, U+212A KELVIN SIGN
    counts as a [k]. *)
Definition spells_ignoring_case (s t : pystr) : Prop :=
  Forall2 (fun c p => c = p \/ ((65 <= c <= 90)%N /\ (c + 32)%N = p)
                      \/ (c = 8490%N /\ p = 107%N)) s t.

(** No whitespace at either end. *)
Definition trimmed (s : pystr) : Prop :=
  (forall c, head s = Some c -> is_space c = false) /\
  (forall c, last s = Some c -> is_space c = false).

(** A cell is sent for correction when it is not missing and not blank. *)
Definition eligible_cell (c : cell) : Prop :=
  exists s, c = Val s /\ strip s <> [].

(** A value that the prompt format carries as it is: not empty, without
    whitespace at its ends and without a line boundary inside. *)
Definition clean_value (v : pystr) : Prop :=
  v <> [] /\ trimmed v /\ Forall (fun c => is_linebreak c = false) v.


(** The progress reports of a log, in order. *)
Definition progress_of (evs : list event) : list (nat * nat) :=
  flat_map (fun e => match e with
                     | Progress done total => [(done, total)]
                     | _ => []
                     end) evs.

(** ** Example data *)

(** A brand job of two values on rows 0 and 1 of sheet [S]. *)
Definition example_job : Job :=
  {| sheet := lit "S"; column_name := lit "Brand"; column_type := BRAND;
     indices := [0%Z; 1%Z]; values := [lit "ga profondo"; lit "Kylie"] |}.

(** A sheet whose rows kept the labels 0, 2 and 5: the brand of row 2
    is missing and the description of row 0 is blank. *)
Definition example_df : DataFrame :=
  {| df_columns := [lit " Brand "; lit "Description"];
     df_rows :=
       [ (0%Z, <[lit " Brand " := Val (lit "ga")]>
                 {[ lit "Description" := Val (lit "  ") ]});
         (2%Z, {[ lit "Description" := Val (lit "x") ]});
         (5%Z, <[lit " Brand " := Val (lit "Kylie")]>
                 {[ lit "Description" := NA ]}) ] |}.

(** The brand job of [example_df], and a run state that holds the sheet. *)
Definition example_brand_job : Job :=
  {| sheet := lit "S"; column_name := lit " Brand "; column_type := BRAND;
     indices := [0%Z; 5%Z]; values := [lit "ga"; lit "Kylie"] |}.

Definition example_state : RunState :=
  {| workbook := {[ lit "S" := example_df ]}; chunks_done := 0; log := [] |}.

(** A job of a kind that the loop has no prompt for. *)
Definition example_other_job : Job :=
  {| sheet := lit "S"; column_name := lit " Brand "; column_type := lit "size";
     indices := [0%Z; 5%Z]; values := [lit "ga"; lit "Kylie"] |}.

(** A template that is the [csv_data] field alone. *)
Definition example_template (csv_data : pystr) : pystr := csv_data.

(** A service that always raises, and one that always answers with the
    header line and nothing else. *)
Definition service_down (n : nat) (prompt : pystr) : completion := Raises.

Definition service_header_only (n : nat) (prompt : pystr) : completion :=
  Returns (Some (lit "brand")).



Definition at_refuses : at_oracle := fun _ _ _ _ => true.







(** ** Properties of the string operations *)

Section StringFacts.

Local Open Scope N_scope.
Implicit Types (s t p : pystr) (c : N).

Lemma FENCE_eq : FENCE = [96; 96; 96].
Proof. reflexivity. Qed.

Lemma FENCE_CSV_eq : FENCE_CSV = [96; 96; 96; 99; 115; 118].
Proof. reflexivity. Qed.

Lemma lstrip_head s c : head (lstrip s) = Some c -> is_space c = false.
Proof.
  induction s as [|a s IH]; simpl; [discriminate|].
  destruct (is_space a) eqn:Ha; [exact IH|].
  simpl. intros [= <-]. exact Ha.
Qed.

Lemma lstrip_snoc s c :
  is_space c = false -> lstrip (s ++ [c]) = lstrip s ++ [c].
Proof.
  intros Hc. induction s as [|a s IH]; simpl.
  - rewrite Hc. reflexivity.
  - destruct (is_space a); [exact IH|reflexivity].
Qed.

Lemma lstrip_fixed s :
  (forall c, head s = Some c -> is_space c = false) -> lstrip s = s.
Proof.
  destruct s as [|a s]; simpl; [reflexivity|].
  intros H. rewrite (H a eq_refl). reflexivity.
Qed.

Lemma strip_trimmed s : trimmed (strip s).
Proof.
  unfold trimmed, strip, rstrip. split; intros c.
  - rewrite head_reverse.
    destruct (lstrip s) as [|a m] eqn:E; [discriminate|].
    assert (Ha : is_space a = false)
      by (apply lstrip_head with (s := s); rewrite E; reflexivity).
    rewrite reverse_cons, (lstrip_snoc _ _ Ha), last_snoc.
    intros [= <-]. exact Ha.
  - rewrite last_reverse. apply lstrip_head.
Qed.

Lemma strip_fixed s : trimmed s -> strip s = s.
Proof.
  intros [Hh Hl]. unfold strip, rstrip.
  rewrite (lstrip_fixed s Hh), lstrip_fixed, reverse_involutive; [done|].
  intros c. rewrite head_reverse. apply Hl.
Qed.

Lemma startswith_app s p : startswith (p ++ s) p = true.
Proof.
  induction p as [|a p IH]; simpl; [reflexivity|].
  rewrite N.eqb_refl. exact IH.
Qed.

Lemma startswith_prefix s p q :
  startswith s (p ++ q) = true -> startswith s p = true.
Proof.
  revert s. induction p as [|a p IH]; intros s; simpl; [reflexivity|].
  destruct s as [|b s]; [discriminate|].
  intros [-> H]%andb_true_iff. rewrite (IH _ H). reflexivity.
Qed.

Lemma endswith_app s p : endswith (s ++ p) p = true.
Proof. unfold endswith. rewrite reverse_app. apply startswith_app. Qed.


(** Lower-casing one code point gives the letter [p] of a token only
    for [p] itself and its upper-case letter. *)
Lemma lower_cp_cases c :
  ((65 <= c <= 90) /\ lower_cp c = [c + 32])
  \/ (c = 8490 /\ lower_cp c = [107])
  \/ (c = 304 /\ lower_cp c = [105; 775])
  \/ (~ (65 <= c <= 90) /\ c <> 8490 /\ c <> 304 /\ lower_cp c = [c]).
Proof.
  unfold lower_cp.
  destruct (N.leb_spec 65 c), (N.leb_spec c 90); simpl;
    try (left; split; [lia|reflexivity]);
    destruct (N.eqb_spec c 8490); try (right; left; split; [lia|reflexivity]);
    destruct (N.eqb_spec c 304);
    try (right; right; left; split; [lia|reflexivity]);
    right; right; right; repeat split; try lia.
Qed.

Lemma lower_eq_token s t :
  plain_token t -> lower s = t <-> same_ignoring_case s t.
Proof.
  intros Ht. split.
  - revert t Ht. induction s as [|c s IH]; intros t Ht; simpl.
    + intros <-. constructor.
    + destruct (lower_cp_cases c)
        as [[Hc ->]|[[-> ->]|[[-> ->]|(Hc & _ & _ & ->)]]];
        simpl; intros <-.
      * apply Forall_cons in Ht as [_ Ht].
        constructor; [right; split; [lia|reflexivity]|]. apply IH; auto.
      * apply Forall_cons in Ht as [[_ Hk] _]. congruence.
      * apply Forall_cons in Ht as [_ Ht].
        apply Forall_cons in Ht as [[[_ Hr] _] _]. lia.
      * apply Forall_cons in Ht as [_ Ht].
        constructor; [left; reflexivity|]. apply IH; auto.
  - intros H. induction H as [|c p s t Hcp _ IH]; [reflexivity|].
    apply Forall_cons in Ht as [[Hp Hk] Ht]. simpl. rewrite (IH Ht).
    destruct (lower_cp_cases c)
      as [[Hc ->]|[[-> ->]|[[-> ->]|(Hc & _ & _ & ->)]]]; simpl;
      destruct Hcp as [?|[? ?]]; subst; try reflexivity; try lia.
Qed.

End StringFacts.

(** ** Properties of the reconciler *)

Section ReconcilerFacts.

Implicit Types (chunk parsed : list pystr) (content column_type : pystr).

Lemma empty_fallback_values i_chunk chunk parsed :
  (empty_fallback i_chunk chunk parsed).1 =
    if is_nil parsed then chunk else parsed.
Proof.
  unfold empty_fallback.
  destruct parsed as [|p ps], chunk as [|v vs]; reflexivity.
Qed.

Lemma fit_length_values i_chunk chunk parsed :
  (fit_length i_chunk chunk parsed).1 =
    if Nat.ltb (length chunk) (length parsed)
    then take (length chunk) parsed
    else parsed ++ drop (length parsed) chunk.
Proof.
  unfold fit_length.
  destruct (Nat.eqb_spec (length parsed) (length chunk)) as [E|E]; simpl.
  - rewrite E, Nat.ltb_irrefl, drop_all, app_nil_r. reflexivity.
  - reflexivity.
Qed.

Lemma fit_length_length i_chunk chunk parsed :
  length (fit_length i_chunk chunk parsed).1 = length chunk.
Proof.
  rewrite fit_length_values.
  destruct (Nat.ltb_spec (length chunk) (length parsed)) as [L|L].
  - rewrite length_take. lia.
  - rewrite length_app, length_drop. lia.
Qed.

Lemma fit_length_same i_chunk chunk :
  fit_length i_chunk chunk chunk = (chunk, []).
Proof. unfold fit_length. rewrite Nat.eqb_refl. reflexivity. Qed.

Lemma reconcile_values column_type i_chunk chunk content :
  (reconcile column_type i_chunk chunk content).1 =
    (fit_length i_chunk chunk
       (empty_fallback i_chunk chunk
          (parsed_list_from_llm column_type (strip_fences content))).1).1.
Proof.
  unfold reconcile.
  destruct (empty_fallback _ _ _) as [p1 w1]; simpl.
  destruct (fit_length _ _ p1) as [p2 w2]; reflexivity.
Qed.

Lemma reconcile_length column_type i_chunk chunk content :
  length (reconcile column_type i_chunk chunk content).1 = length chunk.
Proof. rewrite reconcile_values. apply fit_length_length. Qed.

Lemma correct_chunk_length column_type i_chunk chunk response :
  length (correct_chunk column_type i_chunk chunk response).1
  = length chunk.
Proof.
  destruct response as [|[content|]]; simpl; auto using reconcile_length.
Qed.

Lemma reconcile_uniform column_type i_chunk chunk content :
  let parsed := parsed_list_from_llm column_type (strip_fences content) in
  (reconcile column_type i_chunk chunk content).1 =
    if Nat.ltb (length chunk) (length parsed)
    then take (length chunk) parsed
    else parsed ++ drop (length parsed) chunk.
Proof.
  intros parsed. rewrite reconcile_values, empty_fallback_values.
  fold parsed. destruct parsed as [|p ps] eqn:E; simpl is_nil.
  - rewrite fit_length_values, Nat.ltb_irrefl, drop_all, app_nil_r.
    reflexivity.
  - apply fit_length_values.
Qed.

Lemma reconcile_empty column_type i_chunk chunk content :
  parsed_list_from_llm column_type (strip_fences content) = [] ->
  chunk <> [] ->
  reconcile column_type i_chunk chunk content
  = (chunk, [Warn_empty_response i_chunk]).
Proof.
  intros E Hne. unfold reconcile. rewrite E.
  destruct chunk as [|v vs]; [congruence|].
  change (empty_fallback i_chunk (v :: vs) [])
    with (v :: vs, [Warn_empty_response i_chunk]).
  cbv beta iota. rewrite fit_length_same. reflexivity.
Qed.

End ReconcilerFacts.

(** C1.  Whatever the service does for a chunk (it raises, returns no
    content, or returns any text: empty, with extra lines, with a header
    line, inside a code fence), the values appended for the chunk are
    exactly as many as the chunk has. *)
Theorem reconciled_chunk_has_batch_length :
  forall (column_type : pystr) (i_chunk : nat) (chunk : list pystr)
         (response : completion),
    length (correct_chunk column_type i_chunk chunk response).1
    = length chunk.
Proof. intros. apply correct_chunk_length. Qed.

(** C2.  A parsed list longer than the chunk is cut to the length of the
    chunk; a shorter one is completed with the values of the chunk from
    the position where the parsed list ends.  For the chunk A, B, C the
    answer "brand / X" gives X, B, C and the answer "brand / X / Y / Z / W"
    gives X, Y, Z. *)
Theorem truncation_and_tail_padding :
  forall (column_type : pystr) (i_chunk : nat) (chunk : list pystr)
         (content : pystr),
    let parsed := parsed_list_from_llm column_type (strip_fences content) in
    (reconcile column_type i_chunk chunk content).1 =
      (if Nat.ltb (length chunk) (length parsed)
       then take (length chunk) parsed
       else parsed ++ drop (length parsed) chunk)
    /\ (reconcile BRAND 1 [lit "A"; lit "B"; lit "C"]
          (lit "brand" ++ LF :: lit "X")).1
       = [lit "X"; lit "B"; lit "C"]
    /\ (reconcile BRAND 1 [lit "A"; lit "B"; lit "C"]
          (lit "brand" ++ LF :: lit "X" ++ LF :: lit "Y" ++ LF :: lit "Z"
             ++ LF :: lit "W")).1
       = [lit "X"; lit "Y"; lit "Z"].
Proof.
  intros. split; [apply reconcile_uniform|].
  split; vm_compute; reflexivity.
Qed.

Lemma BRAND_eq : BRAND = [98; 114; 97; 110; 100]%N.
Proof. reflexivity. Qed.

Lemma DESCRIPTION_eq :
  DESCRIPTION = [100; 101; 115; 99; 114; 105; 112; 116; 105; 111; 110]%N.
Proof. reflexivity. Qed.

Lemma kind_token_plain column_type :
  column_type = BRAND \/ column_type = DESCRIPTION -> plain_token column_type.
Proof.
  intros [->| ->]; [rewrite BRAND_eq|rewrite DESCRIPTION_eq];
    unfold plain_token; repeat constructor; lia.
Qed.

Lemma data_lines_header column_type l0 rest :
  lower (strip l0) = column_type -> data_lines column_type (l0 :: rest) = rest.
Proof.
  intros H. unfold data_lines, eqb. rewrite bool_decide_eq_true_2; auto.
Qed.

Lemma data_lines_no_header column_type l0 rest :
  lower (strip l0) <> column_type ->
  data_lines column_type (l0 :: rest) = l0 :: rest.
Proof.
  intros H. unfold data_lines, eqb. rewrite bool_decide_eq_false_2; auto.
Qed.

(** C3.  The first line of the fence-stripped answer is dropped when,
    trimmed, it spells the kind token of the job in any mix of letter
    cases, and only then: otherwise every line is a data row. *)
Theorem header_line_detection :
  forall (column_type content : pystr),
    column_type = BRAND \/ column_type = DESCRIPTION ->
    match splitlines (strip_fences content) with
    | [] => parsed_list_from_llm column_type (strip_fences content) = []
    | l0 :: rest =>
        (same_ignoring_case (strip l0) column_type ->
         parsed_list_from_llm column_type (strip_fences content)
         = strip <$> rest)
        /\ (~ same_ignoring_case (strip l0) column_type ->
            parsed_list_from_llm column_type (strip_fences content)
            = strip <$> (l0 :: rest))
    end.
Proof.
  intros column_type content Hk. unfold parsed_list_from_llm.
  destruct (splitlines (strip_fences content)) as [|l0 rest]; [reflexivity|].
  pose proof (lower_eq_token (strip l0) column_type (kind_token_plain _ Hk))
    as Hlow.
  split; intros H.
  - rewrite data_lines_header; [reflexivity|]. apply Hlow, H.
  - rewrite data_lines_no_header; [reflexivity|]. intros E. apply H, Hlow, E.
Qed.

Lemma header_line_detection_witness :
  (BRAND = BRAND \/ BRAND = DESCRIPTION)
  /\ parsed_list_from_llm BRAND
       (strip_fences (lit " BrAnD " ++ LF :: lit "X" ++ LF :: lit "Y"))
     = [lit "X"; lit "Y"].
Proof.
  split; [left; reflexivity|].
  pose proof (header_line_detection BRAND
                (lit " BrAnD " ++ LF :: lit "X" ++ LF :: lit "Y")
                (or_introl eq_refl)) as H.
  change (splitlines
            (strip_fences (lit " BrAnD " ++ LF :: lit "X" ++ LF :: lit "Y")))
    with [lit "BrAnD "; lit "X"; lit "Y"] in H.
  destruct H as [H _]. rewrite H; [reflexivity|].
  change (strip (lit "BrAnD ")) with [66; 114; 65; 110; 68]%N.
  rewrite BRAND_eq. unfold same_ignoring_case.
  repeat (apply List.Forall2_cons;
          [first [left; reflexivity | right; split; [lia|reflexivity]]|]).
  apply List.Forall2_nil.
Defined.

(** ** Properties of the loop over the chunks *)

Section ChunkLoopFacts.

Variables PROMPT_TEMPLATE_BRAND PROMPT_TEMPLATE_DESCRIPTION : pystr -> pystr.
Variable create_completion : nat -> pystr -> completion.
Variable chunks_total : nat.

Abbreviation step :=
  (chunk_step PROMPT_TEMPLATE_BRAND PROMPT_TEMPLATE_DESCRIPTION
     create_completion chunks_total).

(** The step for a chunk that a prompt is made for. *)
Lemma chunk_step_prompt job total corrected done evs i_chunk start prompt :
  prompt_to_use PROMPT_TEMPLATE_BRAND PROMPT_TEMPLATE_DESCRIPTION
    (column_type job)
    (csv_data_for_prompt
       (chunk_at (values job) (chunk_size (column_type job)) start))
  = Some prompt ->
  step job total (corrected, done, evs) (i_chunk, start) =
    let chunk := chunk_at (values job) (chunk_size (column_type job))
                   start in
    let r := correct_chunk (column_type job) i_chunk chunk
               (create_completion done prompt) in
    (corrected ++ r.1, S done,
     (evs ++ [Status_chunk (column_name job) (sheet job) i_chunk total])
       ++ r.2 ++ [Progress (S done) chunks_total]).
Proof.
  intros Hp. unfold chunk_step. rewrite Hp. cbv zeta.
  destruct (correct_chunk _ _ _ _); reflexivity.
Qed.

(** Every chunk, of any kind of job, adds as many values as it has and
    counts as one chunk done. *)
Lemma chunk_step_counts job total st it :
  length (step job total st it).1.1
  = length st.1.1
    + length (chunk_at (values job) (chunk_size (column_type job)) it.2)
  /\ (step job total st it).1.2 = S st.1.2.
Proof.
  destruct st as [[corrected done] evs], it as [i_chunk start].
  unfold chunk_step.
  destruct (prompt_to_use _ _ _ _) as [prompt|]; cbv beta iota zeta.
  1: match goal with
     | |- context [correct_chunk ?a ?b ?c ?d] =>
         pose proof (correct_chunk_length a b c d) as HL;
         destruct (correct_chunk a b c d) as [vals evs2]
     end.
  all: simpl in *; rewrite ?length_app; split;
    [first [reflexivity | rewrite HL; reflexivity]|reflexivity].
Qed.

Lemma chunk_loop_counts job total its st :
  length (fold_left (step job total) its st).1.1
  = length st.1.1
    + length (concat
                (chunk_at (values job) (chunk_size (column_type job))
                   <$> its.*2))
  /\ (fold_left (step job total) its st).1.2 = st.1.2 + length its.
Proof.
  revert st. induction its as [|it its IH]; intros st.
  - simpl. split; lia.
  - cbn [fold_left]. rewrite !fmap_cons, concat_cons, length_app.
    destruct (IH (step job total st it)) as [-> ->].
    destruct (chunk_step_counts job total st it) as [-> ->].
    cbn [length]. split; lia.
Qed.

End ChunkLoopFacts.

(** C5.  When the service call for a chunk raises (or returns a
    completion without content, which raises inside the [try] block), the
    values appended for the chunk are the values of the chunk themselves,
    the chunk counts as done, and the loop goes on with the chunks that
    remain. *)
Theorem service_exception_fallback :
  forall (PB PD : pystr -> pystr) (create : nat -> pystr -> completion)
         (chunks_total : nat) (job : Job) (total : nat)
         (corrected : list pystr) (done : nat) (evs : list event)
         (i_chunk start : nat) (rest : list (nat * nat)) (prompt : pystr),
    let chunk := chunk_at (values job) (chunk_size (column_type job)) start in
    let st' :=
      (corrected ++ chunk, S done,
       evs ++ [Status_chunk (column_name job) (sheet job) i_chunk total;
               Err_ai i_chunk; Progress (S done) chunks_total]) in
    prompt_to_use PB PD (column_type job) (csv_data_for_prompt chunk)
    = Some prompt ->
    create done prompt = Raises \/ create done prompt = Returns None ->
    chunk_step PB PD create chunks_total job total
      (corrected, done, evs) (i_chunk, start) = st'
    /\ fold_left (chunk_step PB PD create chunks_total job total)
         ((i_chunk, start) :: rest) (corrected, done, evs)
       = fold_left (chunk_step PB PD create chunks_total job total) rest st'.
Proof.
  intros PB PD create chunks_total job total corrected done evs i_chunk
    start rest prompt chunk st' Hp Hraise.
  assert (E : chunk_step PB PD create chunks_total job total
                (corrected, done, evs) (i_chunk, start) = st').
  { rewrite (chunk_step_prompt PB PD create chunks_total job total corrected
               done evs i_chunk start prompt Hp).
    subst st' chunk. cbv zeta.
    destruct Hraise as [-> | ->]; simpl; rewrite <- app_assoc; reflexivity. }
  split; [exact E|]. cbn [fold_left]. rewrite E. reflexivity.
Qed.

Lemma service_exception_fallback_witness :
  prompt_to_use example_template example_template (column_type example_job)
    (csv_data_for_prompt
       (chunk_at (values example_job)
          (chunk_size (column_type example_job)) 0))
  = Some (lit "ga profondo" ++ LF :: lit "Kylie")
  /\ (service_down 0 (lit "ga profondo" ++ LF :: lit "Kylie") = Raises
      \/ service_down 0 (lit "ga profondo" ++ LF :: lit "Kylie")
         = Returns None)
  /\ (chunk_step example_template example_template service_down 1
        example_job 1 ([], 0, []) (1, 0)).1.1
     = [lit "ga profondo"; lit "Kylie"].
Proof.
  split; [reflexivity|]. split; [left; reflexivity|].
  destruct (service_exception_fallback example_template example_template
              service_down 1 example_job 1 [] 0 [] 1 0 []
              (lit "ga profondo" ++ LF :: lit "Kylie")
              eq_refl (or_introl eq_refl)) as [-> _].
  reflexivity.
Defined.

(** C6.  When the answer for a non-empty chunk has no line left after
    fence and header stripping, the values appended for the chunk are the
    values of the chunk, with a warning; the chunk counts as done, and
    the loop goes on with the chunks that remain. *)
Theorem empty_response_fallback :
  forall (PB PD : pystr -> pystr) (create : nat -> pystr -> completion)
         (chunks_total : nat) (job : Job) (total : nat)
         (corrected : list pystr) (done : nat) (evs : list event)
         (i_chunk start : nat) (rest : list (nat * nat))
         (prompt content : pystr),
    let chunk := chunk_at (values job) (chunk_size (column_type job)) start in
    let st' :=
      (corrected ++ chunk, S done,
       evs ++ [Status_chunk (column_name job) (sheet job) i_chunk total;
               Warn_empty_response i_chunk;
               Progress (S done) chunks_total]) in
    prompt_to_use PB PD (column_type job) (csv_data_for_prompt chunk)
    = Some prompt ->
    create done prompt = Returns (Some content) ->
    parsed_list_from_llm (column_type job) (strip_fences content) = [] ->
    chunk <> [] ->
    reconcile (column_type job) i_chunk chunk content
    = (chunk, [Warn_empty_response i_chunk])
    /\ chunk_step PB PD create chunks_total job total
         (corrected, done, evs) (i_chunk, start) = st'
    /\ fold_left (chunk_step PB PD create chunks_total job total)
         ((i_chunk, start) :: rest) (corrected, done, evs)
       = fold_left (chunk_step PB PD create chunks_total job total) rest st'.
Proof.
  intros PB PD create chunks_total job total corrected done evs i_chunk
    start rest prompt content chunk st' Hp Hret Hempty Hne.
  pose proof (reconcile_empty (column_type job) i_chunk chunk content
                Hempty Hne) as R.
  assert (E : chunk_step PB PD create chunks_total job total
                (corrected, done, evs) (i_chunk, start) = st').
  { rewrite (chunk_step_prompt PB PD create chunks_total job total corrected
               done evs i_chunk start prompt Hp).
    subst st'. cbv zeta. rewrite Hret. fold chunk.
    cbn [correct_chunk]. rewrite R. simpl. rewrite <- app_assoc.
    reflexivity. }
  split; [exact R|]. split; [exact E|].
  cbn [fold_left]. rewrite E. reflexivity.
Qed.

Lemma empty_response_fallback_witness :
  prompt_to_use example_template example_template (column_type example_job)
    (csv_data_for_prompt
       (chunk_at (values example_job)
          (chunk_size (column_type example_job)) 0))
  = Some (lit "ga profondo" ++ LF :: lit "Kylie")
  /\ service_header_only 0 (lit "ga profondo" ++ LF :: lit "Kylie")
     = Returns (Some (lit "brand"))
  /\ parsed_list_from_llm (column_type example_job)
       (strip_fences (lit "brand")) = []
  /\ chunk_at (values example_job) (chunk_size (column_type example_job)) 0
     <> []
  /\ chunk_step example_template example_template service_header_only 1
       example_job 1 ([], 0, []) (1, 0)
     = ([lit "ga profondo"; lit "Kylie"], 1,
        [Status_chunk (lit "Brand") (lit "S") 1 1; Warn_empty_response 1;
         Progress 1 1]).
Proof.
  split; [reflexivity|]. split; [reflexivity|].
  split; [reflexivity|]. split; [discriminate|].
  destruct (empty_response_fallback example_template example_template
              service_header_only 1 example_job 1 [] 0 [] 1 0 []
              (lit "ga profondo" ++ LF :: lit "Kylie") (lit "brand")
              eq_refl eq_refl eq_refl ltac:(discriminate)) as (_ & -> & _).
  reflexivity.
Defined.

(** C10.  A reconciled value that comes from a line of the answer is
    that line without its leading and trailing whitespace (a line of
    spaces gives the empty string).  A value at a position that the
    answer has no line for, or for a chunk whose call raised, is the
    original value of the chunk as it is: line ends and blanks inside it
    are kept, unlike in the text sent in the prompt. *)
Theorem response_lines_trimmed_fallback_verbatim :
  forall (column_type : pystr) (i_chunk : nat) (chunk : list pystr)
         (content : pystr),
    let lines := data_lines column_type (splitlines (strip_fences content)) in
    let result := (reconcile column_type i_chunk chunk content).1 in
    (forall k line,
        lines !! k = Some line -> k < length chunk ->
        result !! k = Some (strip line) /\ trimmed (strip line))
    /\ (forall k, length lines <= k -> result !! k = chunk !! k)
    /\ (correct_chunk column_type i_chunk chunk Raises).1 = chunk
    /\ (correct_chunk column_type i_chunk chunk (Returns None)).1 = chunk
    /\ (reconcile BRAND 1 [lit "A"; lit "B"; lit "C"]
          (lit "X" ++ LF :: lit "   " ++ LF :: lit "Y")).1
       = [lit "X"; []; lit "Y"]
    /\ (reconcile BRAND 1 [lit "A" ++ LF :: lit "B"; lit " C" ++ [CR]]
          (lit "X")).1
       = [lit "X"; lit " C" ++ [CR]]
    /\ csv_data_for_prompt [lit "A" ++ LF :: lit "B"; lit " C" ++ [CR]]
       = lit "A B" ++ LF :: lit " C ".
Proof.
  intros column_type i_chunk chunk content lines result.
  assert (R : result =
              if Nat.ltb (length chunk) (length lines)
              then take (length chunk) (strip <$> lines)
              else (strip <$> lines) ++ drop (length lines) chunk).
  { subst result. rewrite reconcile_uniform. unfold parsed_list_from_llm.
    fold lines. rewrite length_fmap. reflexivity. }
  split; [|split].
  - intros k line Hk Hlt. split; [|apply strip_trimmed].
    rewrite R. destruct (Nat.ltb (length chunk) (length lines)).
    + rewrite lookup_take_lt by exact Hlt.
      rewrite list_lookup_fmap, Hk. reflexivity.
    + rewrite lookup_app_l.
      * rewrite list_lookup_fmap, Hk. reflexivity.
      * rewrite length_fmap. eapply lookup_lt_Some, Hk.
  - intros k Hge. rewrite R.
    destruct (Nat.ltb_spec (length chunk) (length lines)) as [L|L].
    + rewrite lookup_take_ge by lia.
      symmetry. apply lookup_ge_None_2. lia.
    + rewrite lookup_app_r by (rewrite length_fmap; exact Hge).
      rewrite length_fmap, lookup_drop. f_equal. lia.
  - repeat split; reflexivity.
Qed.

Lemma response_lines_trimmed_fallback_verbatim_witness :
  data_lines BRAND (splitlines (strip_fences (lit " X "))) !! 0
  = Some (lit "X")
  /\ 0 < length [lit " A"; lit "B "]
  /\ 1 <= 1
  /\ (reconcile BRAND 1 [lit " A"; lit "B "] (lit " X ")).1 !! 0
     = Some (lit "X")
  /\ (reconcile BRAND 1 [lit " A"; lit "B "] (lit " X ")).1 !! 1
     = Some (lit "B ").
Proof.
  destruct (response_lines_trimmed_fallback_verbatim BRAND 1
              [lit " A"; lit "B "] (lit " X ")) as (H1 & H2 & _).
  split; [reflexivity|]. split; [simpl; lia|]. split; [lia|]. split.
  - destruct (H1 0 (lit "X") eq_refl) as [-> _]; [simpl; lia|reflexivity].
  - rewrite (H2 1); [reflexivity|simpl; lia].
Defined.

(** ** Lines of an answer *)

Section LineFacts.

Local Open Scope N_scope.
Implicit Types (s acc l rest : pystr) (ls : list pystr).

Lemma splitlines_from_nil acc :
  splitlines_from acc [] = match acc with [] => [] | _ => [reverse acc] end.
Proof. reflexivity. Qed.

(** One step of [splitlines_from] at a line boundary. *)
Lemma splitlines_from_boundary acc c r :
  is_linebreak c = true ->
  splitlines_from acc (c :: r)
  = reverse acc ::
      splitlines_from []
        (match r with
         | d :: r' => if (c =? CR) && (d =? LF) then r' else r
         | [] => r
         end).
Proof.
  intros Hc. simpl. rewrite Hc. destruct r as [|d r']; [reflexivity|].
  destruct ((c =? CR) && (d =? LF)); reflexivity.
Qed.

Lemma splitlines_from_char acc c r :
  is_linebreak c = false ->
  splitlines_from acc (c :: r) = splitlines_from (c :: acc) r.
Proof. intros Hc. simpl. rewrite Hc. reflexivity. Qed.

Lemma splitlines_from_line l acc rest :
  Forall (fun c => is_linebreak c = false) l ->
  splitlines_from acc (l ++ rest) = splitlines_from (reverse l ++ acc) rest.
Proof.
  intros Hl. revert acc. induction Hl as [|c l Hc _ IH]; intros acc.
  - reflexivity.
  - rewrite <- app_comm_cons, (splitlines_from_char _ _ _ Hc), IH.
    rewrite reverse_cons, <- app_assoc. reflexivity.
Qed.

(** The lines of [splitlines] hold no line boundary. *)
Lemma splitlines_from_single_line n :
  forall s acc,
    (length s <= n)%nat ->
    Forall (fun c => is_linebreak c = false) acc ->
    Forall (Forall (fun c => is_linebreak c = false)) (splitlines_from acc s).
Proof.
  induction n as [|n IH]; intros s acc Hn Hacc.
  - destruct s; [|simpl in Hn; lia]. rewrite splitlines_from_nil.
    destruct acc; repeat constructor.
    apply Forall_reverse. exact Hacc.
  - destruct s as [|c r].
    + rewrite splitlines_from_nil.
      destruct acc; repeat constructor. apply Forall_reverse. exact Hacc.
    + simpl in Hn. destruct (is_linebreak c) eqn:Hc.
      * rewrite (splitlines_from_boundary _ _ _ Hc). constructor.
        -- apply Forall_reverse. exact Hacc.
        -- apply IH; [|constructor].
           destruct r as [|d r']; [simpl; lia|].
           destruct ((c =? CR) && (d =? LF)); simpl in *; lia.
      * rewrite (splitlines_from_char _ _ _ Hc). apply IH; [lia|].
        constructor; assumption.
Qed.

Lemma lstrip_suffix s : exists pre, s = pre ++ lstrip s.
Proof.
  induction s as [|c s [pre IH]]; [exists []; reflexivity|]. simpl.
  destruct (is_space c).
  - exists (c :: pre). simpl. f_equal. exact IH.
  - exists []. reflexivity.
Qed.

Lemma strip_keeps (P : N -> Prop) s : Forall P s -> Forall P (strip s).
Proof.
  intros H. unfold strip, rstrip.
  destruct (lstrip_suffix s) as [pre E].
  assert (H1 : Forall P (lstrip s)).
  { rewrite E in H. apply Forall_app in H. tauto. }
  destruct (lstrip_suffix (reverse (lstrip s))) as [pre' E'].
  apply Forall_reverse.
  apply Forall_reverse in H1. rewrite E' in H1.
  apply Forall_app in H1. tauto.
Qed.

Lemma data_lines_subset column_type ls x :
  x ∈ data_lines column_type ls -> x ∈ ls.
Proof.
  unfold data_lines. destruct ls as [|l0 rest]; [auto|].
  destruct (eqb _ _); [|auto]. intros H. right. exact H.
Qed.

End LineFacts.

(** ** Properties of the fence stripping *)

Section FenceFacts.

Local Open Scope N_scope.
Implicit Types (s t x body name : pystr) (c : N).

Lemma lower_app s t : lower (s ++ t) = lower s ++ lower t.
Proof. unfold lower. apply flat_map_app. Qed.

(** A prefix of lower-cased text that spells a token without [i] and
    [k] comes from a prefix that spells it in some mix of cases. *)
Lemma lower_startswith s t :
  Forall (fun p => p <> 105 /\ p <> 107) t ->
  startswith (lower s) t = true ->
  exists pre rest, s = pre ++ rest /\ same_ignoring_case pre t.
Proof.
  intros Ht. revert s.
  induction Ht as [|p t [Hi Hk] _ IH]; intros s H.
  - exists [], s. split; [reflexivity|constructor].
  - destruct s as [|c r]; [discriminate|].
    change (lower (c :: r)) with (lower_cp c ++ lower r) in H.
    destruct (lower_cp_cases c)
      as [[Hc E]|[[-> E]|[[-> E]|(Hc & _ & _ & E)]]];
      rewrite E in H; simpl in H;
      apply andb_true_iff in H as [Hp H]; apply N.eqb_eq in Hp;
      try congruence.
    + destruct (IH r H) as (pre & rest & -> & Hpre).
      exists (c :: pre), rest. split; [reflexivity|].
      constructor; [right; split; [lia|congruence]|exact Hpre].
    + destruct (IH r H) as (pre & rest & -> & Hpre).
      exists (c :: pre), rest. split; [reflexivity|].
      constructor; [left; congruence|exact Hpre].
Qed.

Lemma same_ignoring_case_fence pre :
  same_ignoring_case pre FENCE -> pre = FENCE.
Proof.
  rewrite FENCE_eq. unfold same_ignoring_case. intros H.
  repeat match goal with
         | H : Forall2 _ _ (_ :: _) |- _ =>
             apply Forall2_cons_inv_r in H as (? & ? & [?|[? ?]] & ? & ->)
         | H : Forall2 _ _ [] |- _ => apply Forall2_nil_inv_r in H as ->
         end; subst; try reflexivity; lia.
Qed.

Lemma lower_startswith_fence s :
  startswith (lower s) FENCE = true -> startswith s FENCE = true.
Proof.
  intros H. apply lower_startswith in H as (pre & rest & -> & Hpre).
  - rewrite (same_ignoring_case_fence _ Hpre). apply startswith_app.
  - rewrite FENCE_eq. repeat constructor; lia.
Qed.




(** Lines 549-550 on a text that has no fence at its start. *)
Lemma leading_no_fence t :
  startswith t FENCE = false ->
  strip_leading_fence (strip_leading_csv_fence t) = t.
Proof.
  intros H.
  assert (G : startswith (lower t) FENCE = false).
  { destruct (startswith (lower t) FENCE) eqn:E; [|reflexivity].
    apply lower_startswith_fence in E. congruence. }
  unfold strip_leading_csv_fence.
  destruct (startswith (lower t) FENCE_CSV) eqn:E.
  - apply (startswith_prefix _ FENCE (lit "csv")) in E. congruence.
  - unfold strip_leading_fence. rewrite G. reflexivity.
Qed.




Lemma trailing_no_fence t :
  endswith t FENCE = false -> strip_trailing_fence t = t.
Proof. intros H. unfold strip_trailing_fence. rewrite H. reflexivity. Qed.

End FenceFacts.

Section FencedResponse.

Local Open Scope N_scope.
Implicit Types (body name : pystr).




End FencedResponse.

Section FenceLine.

Local Open Scope N_scope.
Implicit Types (s t u v l w ann body : pystr) (c : N).














End FenceLine.




(** ** Properties of the chunker *)

Section ChunkerFacts.

Variable values : list pystr.
Variable size : nat.
Hypothesis size_pos : 0 < size.

Lemma chunk_at_length start :
  length (chunk_at values size start)
  = Nat.min size (length values - start).
Proof.
  unfold chunk_at, slice. rewrite length_take, length_drop. lia.
Qed.

Lemma chunk_at_next start :
  chunk_at values size start ++ drop (start + size) values
  = drop start values.
Proof.
  unfold chunk_at, slice.
  destruct (Nat.le_gt_cases (start + size) (length values)) as [L|L].
  - rewrite Nat.min_l by exact L.
    replace (start + size - start) with size by lia.
    rewrite <- drop_drop. apply take_drop.
  - rewrite Nat.min_r by lia.
    rewrite (drop_ge values (start + size)) by lia.
    rewrite app_nil_r. apply take_ge. rewrite length_drop. lia.
Qed.

Lemma range_from_concat fuel start :
  length values - start <= fuel ->
  concat (chunk_at values size <$> range_from fuel start (length values) size)
  = drop start values.
Proof.
  revert start. induction fuel as [|fuel IH]; intros start Hf.
  - simpl. symmetry. apply drop_ge. lia.
  - cbn [range_from].
    destruct (Nat.ltb_spec start (length values)) as [L|L].
    + rewrite fmap_cons, concat_cons, IH by lia. apply chunk_at_next.
    + simpl. symmetry. apply drop_ge. lia.
Qed.

Lemma ceil_div_zero : ceil_div 0 size = 0.
Proof. unfold ceil_div. apply Nat.div_small. lia. Qed.

Lemma ceil_div_step n :
  0 < n -> ceil_div n size = S (ceil_div (n - size) size).
Proof.
  intros Hn. unfold ceil_div.
  destruct (Nat.le_gt_cases n size) as [L|L].
  - replace (n - size) with 0 by lia.
    rewrite (Nat.div_small (0 + size - 1)) by lia.
    symmetry. apply (Nat.div_unique _ _ 1 (n - 1)); lia.
  - replace (n + size - 1) with ((n - size + size - 1) + 1 * size) by lia.
    rewrite Nat.div_add by lia. lia.
Qed.

Lemma range_from_length fuel start :
  length values - start <= fuel ->
  length (range_from fuel start (length values) size)
  = ceil_div (length values - start) size.
Proof.
  revert start. induction fuel as [|fuel IH]; intros start Hf.
  - simpl. replace (length values - start) with 0 by lia.
    symmetry. apply ceil_div_zero.
  - cbn [range_from].
    destruct (Nat.ltb_spec start (length values)) as [L|L].
    + cbn [length]. rewrite IH by lia.
      rewrite (ceil_div_step (length values - start)) by lia.
      do 2 f_equal. lia.
    + simpl. replace (length values - start) with 0 by lia.
      symmetry. apply ceil_div_zero.
Qed.

Lemma range_from_full_chunks fuel start :
  Forall (fun c => length c = size)
    (removelast
       (chunk_at values size <$> range_from fuel start (length values) size)).
Proof.
  revert start. induction fuel as [|fuel IH]; intros start.
  - constructor.
  - cbn [range_from].
    destruct (Nat.ltb_spec start (length values)) as [L|L];
      [|constructor].
    rewrite fmap_cons. specialize (IH (start + size)).
    destruct fuel as [|fuel']; [constructor|].
    cbn [range_from] in *.
    destruct (Nat.ltb_spec (start + size) (length values)) as [L'|L'];
      [|constructor].
    rewrite fmap_cons in *.
    change (removelast (?a :: ?b :: ?l)) with (a :: removelast (b :: l)).
    constructor; [|exact IH].
    rewrite chunk_at_length. lia.
Qed.

Lemma chunks_bounded :
  Forall (fun c => length c <= size) (chunks values size).
Proof.
  unfold chunks. apply Forall_fmap, Forall_forall. intros start _.
  simpl. rewrite chunk_at_length. lia.
Qed.

Lemma chunks_concat : concat (chunks values size) = values.
Proof.
  unfold chunks, py_range. rewrite range_from_concat by lia.
  apply drop_0.
Qed.

Lemma chunks_count :
  length (chunks values size) = ceil_div (length values) size.
Proof.
  unfold chunks, py_range. rewrite length_fmap, range_from_length by lia.
  f_equal. lia.
Qed.

End ChunkerFacts.

Lemma chunk_size_cases column_type :
  chunk_size column_type = CHUNK_BRAND
  \/ chunk_size column_type = CHUNK_DESCRIPTION.
Proof. unfold chunk_size. destruct (eqb _ _); auto. Qed.

Lemma chunk_size_pos column_type : 0 < chunk_size column_type.
Proof.
  destruct (chunk_size_cases column_type) as [-> | ->];
    unfold CHUNK_BRAND, CHUNK_DESCRIPTION; lia.
Qed.

(** C7.  The chunks of a job, in the order of the loop, concatenate to
    the values of the job; each has at most 70 values for a brand job and
    30 for a description job, and all but the last have exactly that
    many; their number is the ceiling of the number of values divided by
    that size. *)
Theorem chunking_is_an_ordered_partition :
  forall (job : Job),
    let size := chunk_size (column_type job) in
    let batches := chunks (values job) size in
    concat batches = values job
    /\ Forall (fun c => length c <= size) batches
    /\ Forall (fun c => length c = size) (removelast batches)
    /\ length batches = ceil_div (length (values job)) size
    /\ (size = 70 \/ size = 30)
    /\ chunk_size BRAND = 70
    /\ chunk_size DESCRIPTION = 30.
Proof.
  intros job size batches.
  pose proof (chunk_size_pos (column_type job)) as Hpos. fold size in Hpos.
  split; [apply chunks_concat, Hpos|].
  split; [apply chunks_bounded, Hpos|].
  split; [apply range_from_full_chunks, Hpos|].
  split; [apply chunks_count, Hpos|].
  split; [apply chunk_size_cases|].
  split; reflexivity.
Qed.

(** ** Properties of tables and of the job extractor *)

Section TableFacts.

Local Open Scope Z_scope.

Lemma mask_spec c : mask c = true <-> eligible_cell c.
Proof.
  unfold mask, eligible_cell, eqb. destruct c as [|s]; simpl.
  - split; [discriminate|]. intros (s & [=] & _).
  - rewrite negb_true_iff, bool_decide_eq_false. split.
    + intros H. exists s. split; [reflexivity|exact H].
    + intros (s' & [= <-] & H). exact H.
Qed.

Lemma sorted_labels_nodup (l : list Z) : StronglySorted Z.lt l -> NoDup l.
Proof.
  induction 1 as [|x l _ IH Hx]; constructor; [|exact IH].
  intros Hin. rewrite Forall_forall in Hx. specialize (Hx x Hin). lia.
Qed.

Lemma filter_sorted {B} (f : Z * B -> bool) (l : list (Z * B)) :
  StronglySorted Z.lt l.*1 -> StronglySorted Z.lt (List.filter f l).*1.
Proof.
  induction l as [|[i b] l IH]; simpl; [constructor|].
  intros [Hi Hs]%StronglySorted_cons. specialize (IH Hs).
  destruct (f (i, b)); [|exact IH].
  rewrite fmap_cons. apply StronglySorted_cons. split; [|exact IH].
  rewrite Forall_forall in *. intros j Hj. apply Hi.
  apply list_elem_of_fmap in Hj as ([j' b'] & -> & Hin).
  apply list_elem_of_In, filter_In in Hin as [Hin _].
  apply list_elem_of_In in Hin.
  apply list_elem_of_fmap. exists (j', b'). split; [reflexivity|exact Hin].
Qed.

Lemma filter_label_absent {B} (l : list (Z * B)) i :
  i ∉ l.*1 -> List.filter (fun ic => ic.1 =? i) l = [].
Proof.
  induction l as [|[j b] l IH]; simpl; [reflexivity|].
  rewrite not_elem_of_cons. intros [Hne Hni].
  destruct (Z.eqb_spec j i); [congruence|]. apply IH, Hni.
Qed.

Lemma filter_label_unique {B} (l : list (Z * B)) i b :
  NoDup l.*1 -> (i, b) ∈ l ->
  List.filter (fun ic => ic.1 =? i) l = [(i, b)].
Proof.
  induction l as [|[j d] l IH]; simpl.
  - intros _ H. inversion H.
  - rewrite NoDup_cons. intros [Hj Hnd] Hin.
    apply elem_of_cons in Hin as [[= <- <-]|Hin].
    + rewrite Z.eqb_refl, filter_label_absent; [reflexivity|exact Hj].
    + destruct (Z.eqb_spec j i) as [->|Hne].
      * exfalso. apply Hj. apply list_elem_of_fmap.
        exists (i, b). split; [reflexivity|exact Hin].
      * apply IH; assumption.
Qed.

Lemma find_label {B} (l : list (Z * B)) i b :
  NoDup l.*1 -> (i, b) ∈ l ->
  List.find (fun ir => ir.1 =? i) l = Some (i, b).
Proof.
  induction l as [|[j d] l IH]; simpl.
  - intros _ H. inversion H.
  - rewrite NoDup_cons. intros [Hj Hnd] Hin.
    apply elem_of_cons in Hin as [[= <- <-]|Hin].
    + rewrite Z.eqb_refl. reflexivity.
    + destruct (Z.eqb_spec j i) as [->|Hne].
      * exfalso. apply Hj. apply list_elem_of_fmap.
        exists (i, b). split; [reflexivity|exact Hin].
      * apply IH; assumption.
Qed.

Lemma column_labels df col : (column df col).*1 = df_index df.
Proof.
  unfold column, df_index. rewrite <- list_fmap_compose.
  apply list_fmap_ext. intros _ [i r] _. reflexivity.
Qed.

(** With distinct labels, [df.loc] gives one cell per label asked for. *)
Lemma loc_selected df col (sel : list (Z * cell)) :
  NoDup (df_index df) ->
  (forall ic, ic ∈ sel -> ic ∈ column df col) ->
  loc df sel.*1 col = sel.*2.
Proof.
  intros Hnd. rewrite <- (column_labels df col) in Hnd. unfold loc.
  induction sel as [|[i c] sel IH]; intros Hsub; [reflexivity|].
  rewrite !fmap_cons. cbn [flat_map fst].
  rewrite (filter_label_unique _ i c Hnd)
    by (apply Hsub; left).
  rewrite IH by (intros ic Hic; apply Hsub; right; exact Hic).
  reflexivity.
Qed.

Lemma cell_at_column df col i c :
  NoDup (df_index df) -> (i, c) ∈ column df col ->
  cell_at df i col = Some c.
Proof.
  intros Hnd Hin. unfold column in Hin.
  apply list_elem_of_fmap in Hin as ([j r] & [= -> ->] & Hin).
  unfold cell_at. rewrite (find_label _ j r Hnd Hin). reflexivity.
Qed.

Lemma found_column_not_empty cols target col :
  target = BRAND \/ target = DESCRIPTION ->
  get_actual_column_name cols target = Some col -> is_nil col = false.
Proof.
  intros Ht H. apply find_some in H as [_ H].
  destruct col; [|reflexivity].
  destruct Ht as [-> | ->]; discriminate.
Qed.

End TableFacts.

Lemma column_job_eq sheet_name df target col :
  target = BRAND \/ target = DESCRIPTION ->
  NoDup (df_index df) ->
  get_actual_column_name (df_columns df) target = Some col ->
  column_job sheet_name df target =
    let eligible := List.filter (fun ic => mask ic.2) (column df col) in
    if is_nil eligible then []
    else [ {| sheet := sheet_name; column_name := col; column_type := target;
              indices := eligible.*1;
              values := astype_str <$> eligible.*2 |} ].
Proof.
  intros Ht Hnd Hcol. unfold column_job. rewrite Hcol.
  rewrite (found_column_not_empty _ _ _ Ht Hcol). cbv zeta.
  rewrite loc_selected; [|exact Hnd|].
  - destruct (List.filter _ _); reflexivity.
  - intros ic Hic. apply list_elem_of_In, filter_In in Hic as [Hic _].
    apply list_elem_of_In, Hic.
Qed.

Lemma eligible_rows df col i c :
  (i, c) ∈ List.filter (fun ic => mask ic.2) (column df col)
  <-> (i, c) ∈ column df col /\ eligible_cell c.
Proof.
  rewrite list_elem_of_In, filter_In, <- list_elem_of_In.
  simpl. rewrite mask_spec. reflexivity.
Qed.

(** C8.  For a table with ascending row labels and each of the two
    logical columns that the table has: a job is made exactly when some
    row of the column holds a value that is not missing and not blank
    after trimming.  The job is the only one for the column; its indices
    are the labels of those rows in ascending order, its values are the
    strings of the cells at those labels, and it has as many indices as
    values.  A column that the table lacks gives no job. *)
Theorem job_extraction :
  forall (sheet_name : pystr) (df : DataFrame) (target : pystr),
    target = BRAND \/ target = DESCRIPTION ->
    df_wf df ->
    match get_actual_column_name (df_columns df) target with
    | None => column_job sheet_name df target = []
    | Some col =>
        (column_job sheet_name df target <> [] <->
         exists i c, (i, c) ∈ column df col /\ eligible_cell c)
        /\ forall job,
            job ∈ column_job sheet_name df target ->
            column_job sheet_name df target = [job]
            /\ sheet job = sheet_name
            /\ column_name job = col
            /\ column_type job = target
            /\ StronglySorted Z.lt (indices job)
            /\ length (indices job) = length (values job)
            /\ (forall i, i ∈ indices job <->
                          exists c, (i, c) ∈ column df col /\ eligible_cell c)
            /\ (forall k i, indices job !! k = Some i ->
                            exists s, cell_at df i col = Some (Val s)
                                      /\ strip s <> []
                                      /\ values job !! k = Some s)
    end.
Proof.
  intros sheet_name df target Ht Hwf.
  pose proof (sorted_labels_nodup _ Hwf) as Hnd.
  destruct (get_actual_column_name (df_columns df) target) as [col|] eqn:Hcol;
    [|unfold column_job; rewrite Hcol; reflexivity].
  rewrite (column_job_eq sheet_name df target col Ht Hnd Hcol). cbv zeta.
  pose proof (eligible_rows df col) as Hel.
  assert (Hs : StronglySorted Z.lt
                 (List.filter (fun ic => mask ic.2) (column df col)).*1).
  { apply filter_sorted. rewrite column_labels. exact Hwf. }
  destruct (List.filter (fun ic => mask ic.2) (column df col))
    as [|[i0 c0] el] eqn:Eel; cbn [is_nil].
  - split.
    + split; [congruence|]. intros (i & c & Hin). apply Hel in Hin.
      inversion Hin.
    + intros job Hjob. inversion Hjob.
  - split.
    + split; [|discriminate]. intros _. exists i0, c0.
      apply Hel. left.
    + intros job Hjob. apply list_elem_of_singleton in Hjob as ->.
      cbn [sheet column_name column_type indices values].
      repeat (split; [reflexivity|]).
      split; [exact Hs|].
      split; [rewrite !length_fmap; reflexivity|].
      split.
      * intros i. rewrite list_elem_of_fmap. split.
        -- intros ([i' c] & -> & Hin). exists c. apply Hel, Hin.
        -- intros (c & Hin). exists (i, c). split; [reflexivity|].
           apply Hel, Hin.
      * intros k i Hk.
        apply list_lookup_fmap_Some in Hk as ([i' c] & -> & Hk).
        pose proof (list_elem_of_lookup_2 _ _ _ Hk) as Hin.
        apply Hel in Hin as [Hin (s & -> & Hs')].
        exists s. split; [apply cell_at_column; assumption|].
        split; [exact Hs'|].
        rewrite !list_lookup_fmap, Hk. reflexivity.
Qed.

Lemma example_df_wf : df_wf example_df.
Proof.
  unfold df_wf. change (df_index example_df) with [0%Z; 2%Z; 5%Z].
  repeat (apply SSorted_cons; [|repeat constructor; lia]). constructor.
Qed.

Lemma job_extraction_witness :
  (BRAND = BRAND \/ BRAND = DESCRIPTION)
  /\ df_wf example_df
  /\ column_job (lit "S") example_df BRAND
     = [ {| sheet := lit "S"; column_name := lit " Brand ";
            column_type := BRAND; indices := [0%Z; 5%Z];
            values := [lit "ga"; lit "Kylie"] |} ]
  /\ (forall job,
         job ∈ column_job (lit "S") example_df BRAND ->
         StronglySorted Z.lt (indices job)
         /\ length (indices job) = length (values job)).
Proof.
  split; [left; reflexivity|]. split; [exact example_df_wf|].
  split; [vm_compute; reflexivity|].
  intros job Hjob.
  pose proof (job_extraction (lit "S") example_df BRAND (or_introl eq_refl)
                example_df_wf) as H.
  change (get_actual_column_name (df_columns example_df) BRAND)
    with (Some (lit " Brand ")) in H.
  destruct H as [_ H]. destruct (H job Hjob) as (_ & _ & _ & _ & Hs & Hl & _).
  split; assumption.
Defined.

(** ** Properties of the write-back *)

Section MergeFacts.

Local Open Scope Z_scope.
Implicit Types (df : DataFrame) (col : pystr) (ivs : list (Z * pystr)).











End MergeFacts.

Section JobLoopFacts.

Variables PROMPT_TEMPLATE_BRAND PROMPT_TEMPLATE_DESCRIPTION : pystr -> pystr.
Variable create_completion : nat -> pystr -> completion.
Variable chunks_total : nat.

(** The corrected values of a job are as many as its values, and every
    chunk of the job has been counted. *)
Lemma correct_job_counts job done evs :
  let r := correct_job PROMPT_TEMPLATE_BRAND PROMPT_TEMPLATE_DESCRIPTION
             create_completion chunks_total job done evs in
  length r.1.1 = length (values job)
  /\ r.1.2 = done + ceil_div (length (values job))
                      (chunk_size (column_type job)).
Proof.
  unfold correct_job. cbv zeta.
  pose proof (chunk_size_pos (column_type job)) as Hpos.
  destruct (chunk_loop_counts PROMPT_TEMPLATE_BRAND
              PROMPT_TEMPLATE_DESCRIPTION create_completion chunks_total
              job (ceil_div (length (values job))
                     (chunk_size (column_type job)))
              (enumerate_from_1
                 (py_range (length (values job))
                    (chunk_size (column_type job))))
              ([], done, evs)) as [-> ->].
  unfold enumerate_from_1.
  rewrite snd_zip by (rewrite length_seq; lia).
  rewrite length_zip_with_r_eq by (rewrite length_seq; reflexivity).
  fold (chunks (values job) (chunk_size (column_type job))).
  rewrite (chunks_concat _ _ Hpos). cbn [fst snd length].
  split; [lia|]. f_equal.
  rewrite <- (chunks_count _ _ Hpos). unfold chunks.
  rewrite length_fmap. reflexivity.
Qed.

End JobLoopFacts.





(** * Further properties of the code *)

(** ** Column lookup *)

Lemma lower_plain_token t : plain_token t -> lower t = t.
Proof.
  intros Ht. apply lower_eq_token; [exact Ht|].
  unfold same_ignoring_case. clear Ht.
  induction t; constructor; auto.
Qed.

Lemma find_first_match {A} (f : A -> bool) (l : list A) :
  match List.find f l with
  | Some x => exists before after,
                l = before ++ x :: after /\ f x = true
                /\ Forall (fun y => f y = false) before
  | None => Forall (fun y => f y = false) l
  end.
Proof.
  induction l as [|a l IH]; simpl; [constructor|].
  destruct (f a) eqn:E.
  - exists [], l. repeat split; [exact E|constructor].
  - destruct (List.find f l) as [x|].
    + destruct IH as (before & after & -> & Hx & Hb).
      exists (a :: before), after. repeat split; [exact Hx|].
      constructor; assumption.
    + constructor; assumption.
Qed.

Lemma lower_ascii (t : pystr) :
  Forall (fun p => (p < 128)%N) t ->
  Forall (fun p => (p < 128)%N /\ ~ (65 <= p <= 90)%N) (lower t).
Proof.
  induction 1 as [|c t Hc _ IH]; [constructor|].
  change (lower (c :: t)) with (lower_cp c ++ lower t).
  apply Forall_app. split; [|exact IH].
  destruct (lower_cp_cases c)
    as [[Hu ->]|[[-> _]|[[-> _]|(Hu & _ & _ & ->)]]];
    [repeat constructor; lia|lia|lia|repeat constructor; lia].
Qed.

(** Lower-cased text equals a lower-case ASCII text exactly when the
    text spells it in some mix of cases. *)
Lemma lower_eq_ascii (s t : pystr) :
  Forall (fun p => (p < 128)%N /\ ~ (65 <= p <= 90)%N) t ->
  lower s = t <-> spells_ignoring_case s t.
Proof.
  intros Ht. split.
  - revert t Ht. induction s as [|c s IH]; intros t Ht.
    + intros <-. constructor.
    + change (lower (c :: s)) with (lower_cp c ++ lower s).
      destruct (lower_cp_cases c)
        as [[Hc ->]|[[-> ->]|[[-> ->]|(Hc & _ & _ & ->)]]];
        cbn [app]; intros <-.
      * apply Forall_cons in Ht as [_ Ht].
        constructor; [right; left; split; [lia|reflexivity]|].
        apply IH; auto.
      * apply Forall_cons in Ht as [_ Ht].
        constructor; [right; right; split; reflexivity|]. apply IH; auto.
      * apply Forall_cons in Ht as [_ Ht].
        apply Forall_cons in Ht as [[Hr _] _]. lia.
      * apply Forall_cons in Ht as [_ Ht].
        constructor; [left; reflexivity|]. apply IH; auto.
  - intros H. induction H as [|c p s t Hcp _ IH]; [reflexivity|].
    apply Forall_cons in Ht as [[Hp Hu] Ht].
    change (lower (c :: s)) with (lower_cp c ++ lower s). rewrite (IH Ht).
    destruct (lower_cp_cases c)
      as [[Hc ->]|[[-> ->]|[[-> ->]|(Hc & Hk & _ & ->)]]]; cbn [app];
      destruct Hcp as [?|[[? ?]|[? ?]]]; subst;
      try reflexivity; try lia; try congruence.
Qed.

(** X1.  [get_actual_column_name] gives the first column, in the order
    of the table, whose trimmed name spells the target without regard to
    letter case, for every target of ASCII characters (all the targets
    of the program are); it gives [None] exactly when no column does.
    The name is returned as the table has it, untrimmed. *)
Theorem get_actual_column_name_first_match :
  forall (cols : list pystr) (target : pystr),
    Forall (fun p => (p < 128)%N) target ->
    match get_actual_column_name cols target with
    | Some col =>
        exists before after,
          cols = before ++ col :: after
          /\ spells_ignoring_case (strip col) (lower target)
          /\ Forall (fun c => ~ spells_ignoring_case (strip c) (lower target))
               before
    | None =>
        Forall (fun c => ~ spells_ignoring_case (strip c) (lower target)) cols
    end.
Proof.
  intros cols target Ht. apply lower_ascii in Ht.
  unfold get_actual_column_name.
  pose proof (find_first_match
                (fun col => eqb (lower (strip col)) (lower target)) cols)
    as H.
  cbv beta in H.
  assert (Hn : forall l,
             Forall (fun y => eqb (lower (strip y)) (lower target) = false)
               l ->
             Forall (fun c => ~ spells_ignoring_case (strip c) (lower target))
               l).
  { intros l Hl. eapply Forall_impl; [exact Hl|]. intros c Hc Hs.
    apply (lower_eq_ascii _ _ Ht) in Hs. unfold eqb in Hc.
    apply bool_decide_eq_false in Hc. contradiction. }
  destruct (List.find _ cols) as [col|].
  - destruct H as (before & after & -> & Hx & Hb).
    exists before, after. split; [reflexivity|]. split; [|apply Hn, Hb].
    apply (lower_eq_ascii _ _ Ht). unfold eqb in Hx.
    apply bool_decide_eq_true in Hx. exact Hx.
  - apply Hn, H.
Qed.

Lemma get_actual_column_name_first_match_witness :
  Forall (fun p => (p < 128)%N) (lit "SKU code")
  /\ get_actual_column_name
       [lit "Brand"; lit " Sku Code "; lit "sku code"] (lit "SKU code")
     = Some (lit " Sku Code ")
  /\ spells_ignoring_case (strip (lit " Sku Code ")) (lit "sku code")
  /\ ~ spells_ignoring_case (strip (lit "Brand")) (lit "sku code").
Proof.
  assert (Ht : Forall (fun p => (p < 128)%N) (lit "SKU code"))
    by (repeat constructor).
  split; [exact Ht|]. split; [reflexivity|].
  pose proof (get_actual_column_name_first_match
                [lit "Brand"; lit " Sku Code "; lit "sku code"]
                (lit "SKU code") Ht) as H.
  change (get_actual_column_name
            [lit "Brand"; lit " Sku Code "; lit "sku code"] (lit "SKU code"))
    with (Some (lit " Sku Code ")) in H.
  destruct H as (before & after & E & H & Hb).
  split; [exact H|].
  destruct before as [|b before].
  - cbn [app] in E. injection E as E _. discriminate E.
  - cbn [app] in E. injection E as <- _.
    apply Forall_cons in Hb as [Hb _]. exact Hb.
Defined.

(** ** Warnings of the reconciler *)

(** X2.  The reconciler warns exactly when it repairs: it gives no
    warning if and only if the parsed list is as long as the chunk, and
    then the reconciled values are the parsed lines themselves. *)
Theorem reconcile_silent_iff_lengths_match :
  forall (column_type : pystr) (i_chunk : nat) (chunk : list pystr)
         (content : pystr),
    let parsed := parsed_list_from_llm column_type (strip_fences content) in
    ((reconcile column_type i_chunk chunk content).2 = []
     <-> length parsed = length chunk)
    /\ (length parsed = length chunk ->
        (reconcile column_type i_chunk chunk content).1 = parsed).
Proof.
  intros column_type i_chunk chunk content parsed.
  unfold reconcile. fold parsed. unfold empty_fallback.
  destruct parsed as [|p ps], chunk as [|v vs]; cbn [is_nil negb andb].
  - rewrite fit_length_same. simpl. tauto.
  - rewrite fit_length_same. simpl. split; [|discriminate].
    split; [discriminate|]. intros [=].
  - unfold fit_length. simpl. split; [|discriminate].
    split; [discriminate|]. intros [=].
  - unfold fit_length.
    destruct (Nat.eqb_spec (length (p :: ps)) (length (v :: vs))) as [E|E].
    + simpl. tauto.
    + simpl. split; [|intros H; contradiction].
      split; [discriminate|]. intros H. contradiction.
Qed.

(** ** The text sent in the prompt *)

Section PromptFacts.

Local Open Scope N_scope.
Implicit Types (v s sep : pystr) (ls chunk : list pystr).

Lemma replace_cp_absent a b s : a <> b -> Forall (fun c => c <> a) (replace_cp a b s).
Proof.
  intros Hab. unfold replace_cp. apply Forall_fmap, Forall_forall.
  intros c _. simpl. destruct (N.eqb_spec c a); congruence.
Qed.

Lemma replace_cp_keeps a b d s :
  d <> b -> Forall (fun c => c <> d) s ->
  Forall (fun c => c <> d) (replace_cp a b s).
Proof.
  intros Hdb Hs. unfold replace_cp. apply Forall_fmap.
  eapply Forall_impl; [exact Hs|]. intros c Hc. simpl.
  destruct (c =? a); congruence.
Qed.

Lemma replace_cp_id a b s : Forall (fun c => c <> a) s -> replace_cp a b s = s.
Proof.
  unfold replace_cp. induction 1 as [|c s Hc _ IH]; [reflexivity|].
  rewrite fmap_cons, IH. destruct (N.eqb_spec c a); congruence.
Qed.

Lemma join_cons sep v ls :
  ls <> [] -> join sep (v :: ls) = v ++ sep ++ join sep ls.
Proof. destruct ls; [congruence|reflexivity]. Qed.

Lemma filter_app_eqb a s t :
  List.filter (N.eqb a) (s ++ t)
  = List.filter (N.eqb a) s ++ List.filter (N.eqb a) t.
Proof. apply List.filter_app. Qed.

Lemma filter_absent a s :
  Forall (fun c => c <> a) s -> List.filter (N.eqb a) s = [].
Proof.
  induction 1 as [|c s Hc _ IH]; [reflexivity|]. simpl.
  destruct (N.eqb_spec a c); [congruence|exact IH].
Qed.

Lemma join_separator_count ls :
  Forall (Forall (fun c => c <> LF)) ls ->
  length (List.filter (N.eqb LF) (join [LF] ls)) = (length ls - 1)%nat.
Proof.
  induction 1 as [|v ls Hv Hls IH]; [reflexivity|].
  destruct ls as [|w ls].
  - simpl. rewrite (filter_absent _ _ Hv). reflexivity.
  - rewrite join_cons by discriminate.
    rewrite !filter_app_eqb, (filter_absent _ _ Hv), !length_app, IH.
    simpl. lia.
Qed.

Lemma join_all_absent a ls :
  a <> LF -> Forall (Forall (fun c => c <> a)) ls ->
  Forall (fun c => c <> a) (join [LF] ls).
Proof.
  intros Ha. induction 1 as [|v ls Hv Hls IH]; [constructor|].
  destruct ls as [|w ls]; [exact Hv|].
  rewrite join_cons by discriminate.
  apply Forall_app. split; [exact Hv|].
  apply Forall_app. split; [|exact IH].
  constructor; [congruence|constructor].
Qed.

End PromptFacts.

Lemma csv_data_for_prompt_plain (chunk : list pystr) :
  Forall (Forall (fun c => c <> LF /\ c <> CR)) chunk ->
  csv_data_for_prompt chunk = join [LF] chunk.
Proof.
  intros H. unfold csv_data_for_prompt. f_equal.
  induction H as [|v ls Hv _ IH]; [reflexivity|].
  rewrite fmap_cons, IH. f_equal.
  rewrite (replace_cp_id LF), (replace_cp_id CR); [reflexivity|..];
    eapply Forall_impl; try exact Hv; simpl; tauto.
Qed.

(** X3.  The text of a chunk in the prompt holds one line per value:
    it has no carriage return and exactly one line feed fewer than the
    chunk has values, whatever line ends the values contain.  Values
    without line feed and carriage return are sent as they are. *)
Theorem prompt_text_has_one_line_per_value :
  forall (chunk : list pystr),
    Forall (fun c => c <> CR) (csv_data_for_prompt chunk)
    /\ length (List.filter (N.eqb LF) (csv_data_for_prompt chunk))
       = length chunk - 1
    /\ (Forall (Forall (fun c => c <> LF /\ c <> CR)) chunk ->
        csv_data_for_prompt chunk = join [LF] chunk).
Proof.
  intros chunk. unfold csv_data_for_prompt. split; [|split].
  - apply join_all_absent; [discriminate|].
    apply Forall_fmap, Forall_forall. intros v _. simpl.
    apply replace_cp_absent. discriminate.
  - rewrite join_separator_count, length_fmap; [reflexivity|].
    apply Forall_fmap, Forall_forall. intros v _. simpl.
    apply replace_cp_keeps; [discriminate|].
    apply replace_cp_absent. discriminate.
  - apply csv_data_for_prompt_plain.
Qed.

(** ** Rows of an answer *)

(** X4.  Every data row read from an answer is a single line without
    whitespace at its ends: it contains none of the line boundaries that
    [splitlines] knows (line feed, carriage return, vertical tab, form
    feed, the separators U+001C to U+001E, U+0085, U+2028, U+2029). *)
Theorem parsed_rows_are_single_trimmed_lines :
  forall (column_type llm_output_text v : pystr),
    v ∈ parsed_list_from_llm column_type llm_output_text ->
    trimmed v /\ Forall (fun c => is_linebreak c = false) v.
Proof.
  intros column_type text v Hv. unfold parsed_list_from_llm in Hv.
  apply list_elem_of_fmap in Hv as (line & -> & Hline).
  split; [apply strip_trimmed|]. apply strip_keeps.
  apply data_lines_subset in Hline.
  pose proof (splitlines_from_single_line (length text) text []
                (le_n _) (List.Forall_nil _)) as H.
  rewrite Forall_forall in H. apply H. exact Hline.
Qed.

Lemma parsed_rows_are_single_trimmed_lines_witness :
  lit "X" ∈ parsed_list_from_llm BRAND (lit "Brand" ++ CR :: LF :: lit " X ")
  /\ trimmed (lit "X")
  /\ Forall (fun c => is_linebreak c = false) (lit "X").
Proof.
  assert (H : lit "X" ∈ parsed_list_from_llm BRAND
                          (lit "Brand" ++ CR :: LF :: lit " X "))
    by (change (parsed_list_from_llm BRAND
                  (lit "Brand" ++ CR :: LF :: lit " X ")) with [lit "X"];
        left).
  split; [exact H|].
  exact (parsed_rows_are_single_trimmed_lines BRAND
           (lit "Brand" ++ CR :: LF :: lit " X ") (lit "X") H).
Defined.

(** ** An answer that repeats the prompt text *)

Section EchoFacts.

Local Open Scope N_scope.
Implicit Types (s v : pystr) (ls chunk : list pystr).

(** [splitlines] undoes the joining of single lines with line feeds. *)
Lemma splitlines_join ls :
  Forall (Forall (fun c => is_linebreak c = false)) ls ->
  last ls <> Some [] ->
  splitlines (join [LF] ls) = ls.
Proof.
  unfold splitlines. induction 1 as [|l ls Hl Hls IH]; intros Hlast.
  - reflexivity.
  - destruct ls as [|l2 ls].
    + simpl join. rewrite <- (app_nil_r l) at 1.
      rewrite (splitlines_from_line _ _ _ Hl), app_nil_r, splitlines_from_nil.
      destruct (reverse l) eqn:E.
      * apply (f_equal reverse) in E.
        rewrite reverse_involutive, reverse_nil in E.
        subst l. exfalso. apply Hlast. reflexivity.
      * rewrite <- E, reverse_involutive. reflexivity.
    + rewrite join_cons by discriminate.
      rewrite (splitlines_from_line _ _ _ Hl), app_nil_r.
      change ([LF] ++ join [LF] (l2 :: ls)) with (LF :: join [LF] (l2 :: ls)).
      rewrite splitlines_from_boundary by reflexivity.
      rewrite reverse_involutive. f_equal.
      replace (match join [LF] (l2 :: ls) with
               | d :: r' => if (LF =? CR) && (d =? LF) then r'
                            else join [LF] (l2 :: ls)
               | [] => join [LF] (l2 :: ls)
               end) with (join [LF] (l2 :: ls))
        by (destruct (join [LF] (l2 :: ls)); reflexivity).
      apply IH. rewrite last_cons_cons in Hlast. exact Hlast.
Qed.

Lemma last_join ls v :
  last ls = Some v -> v <> [] -> last (join [LF] ls) = last v.
Proof.
  induction ls as [|l ls IH]; [discriminate|]. intros Hl Hv.
  destruct ls as [|l2 ls].
  - simpl in *. congruence.
  - rewrite join_cons by discriminate. rewrite last_cons_cons in Hl.
    specialize (IH Hl Hv).
    rewrite !last_app, IH.
    destruct (last v) eqn:E; [reflexivity|].
    apply last_None in E. contradiction.
Qed.

Lemma endswith_fence_last s c :
  last s = Some c -> c <> 96 -> endswith s FENCE = false.
Proof.
  intros Hs Hc. apply last_Some in Hs as [s' ->].
  unfold endswith. rewrite reverse_snoc, FENCE_eq.
  change (reverse [96; 96; 96]) with [96; 96; 96]. cbn [startswith].
  rewrite (proj2 (N.eqb_neq 96 c)) by congruence. reflexivity.
Qed.

End EchoFacts.

Lemma linebreak_free_no_line_end (v : pystr) :
  Forall (fun c => is_linebreak c = false) v ->
  Forall (fun c => c <> LF /\ c <> CR) v.
Proof.
  intros H. eapply Forall_impl; [exact H|]. intros c Hc.
  split; intros ->; discriminate.
Qed.

Lemma kind_token_line column_type :
  column_type = BRAND \/ column_type = DESCRIPTION ->
  Forall (fun c => is_linebreak c = false) column_type
  /\ lower (strip column_type) = column_type
  /\ (exists c r, column_type = c :: r /\ is_space c = false /\ c <> 96%N).
Proof.
  intros [-> | ->]; (split; [|split]).
  - rewrite BRAND_eq. repeat constructor.
  - reflexivity.
  - rewrite BRAND_eq. eexists _, _. repeat split. discriminate.
  - rewrite DESCRIPTION_eq. repeat constructor.
  - reflexivity.
  - rewrite DESCRIPTION_eq. eexists _, _. repeat split. discriminate.
Qed.

(** X5.  An answer that repeats the header line and the text of the
    prompt gives back the values of the chunk, without any warning: this
    holds for a chunk of values that are not empty, have no whitespace at
    their ends and no line boundary inside, the last of which does not
    end with a backtick. *)
Theorem echo_answer_keeps_values :
  forall (column_type : pystr) (i_chunk : nat) (chunk : list pystr),
    column_type = BRAND \/ column_type = DESCRIPTION ->
    chunk <> [] ->
    Forall clean_value chunk ->
    (forall v c, last chunk = Some v -> last v = Some c -> c <> 96%N) ->
    reconcile column_type i_chunk chunk
      (column_type ++ LF :: csv_data_for_prompt chunk)
    = (chunk, []).
Proof.
  intros ct i_chunk chunk Hk Hne Hclean Hlast.
  destruct (kind_token_line ct Hk) as (Hct & Hlow & c0 & r0 & Ect & Hc0 & Hb0).
  assert (Hlines : Forall (Forall (fun c => is_linebreak c = false)) chunk).
  { eapply Forall_impl; [exact Hclean|]. intros v (_ & _ & H). exact H. }
  rewrite csv_data_for_prompt_plain
    by (eapply Forall_impl; [exact Hlines|];
        intros v; apply linebreak_free_no_line_end).
  assert (Ejoin : ct ++ LF :: join [LF] chunk = join [LF] (ct :: chunk))
    by (rewrite join_cons by exact Hne; reflexivity).
  destruct (last chunk) as [vl|] eqn:El;
    [|apply last_None in El; contradiction].
  assert (Hvl : clean_value vl).
  { rewrite Forall_forall in Hclean. apply Hclean.
    apply last_Some in El as [pre ->]. apply elem_of_app. right. left. }
  destruct Hvl as (Hvne & Hvt & _).
  assert (Elast : last (ct ++ LF :: join [LF] chunk) = last vl).
  { rewrite Ejoin. apply last_join; [|exact Hvne].
    destruct chunk; [congruence|]. rewrite last_cons_cons. exact El. }
  assert (Htrim : trimmed (ct ++ LF :: join [LF] chunk)).
  { split; intros c.
    - rewrite Ect. intros [= <-]. exact Hc0.
    - rewrite Elast. apply Hvt. }
  assert (Hfences : strip_fences (ct ++ LF :: join [LF] chunk)
                    = ct ++ LF :: join [LF] chunk).
  { unfold strip_fences. rewrite (strip_fixed _ Htrim).
    rewrite leading_no_fence.
    - apply trailing_no_fence.
      destruct (last vl) as [cl|] eqn:Ecl;
        [|apply last_None in Ecl; contradiction].
      apply (endswith_fence_last _ cl); [congruence|].
      apply (Hlast vl cl eq_refl Ecl).
    - rewrite Ect, FENCE_eq. cbn [app startswith].
      rewrite (proj2 (N.eqb_neq 96%N c0)) by congruence. reflexivity. }
  assert (Hparsed : parsed_list_from_llm ct (ct ++ LF :: join [LF] chunk)
                    = chunk).
  { unfold parsed_list_from_llm. rewrite Ejoin, splitlines_join.
    - rewrite (data_lines_header _ _ _ Hlow).
      clear -Hclean. induction Hclean as [|v vs (_ & Hv & _) _ IH];
        [reflexivity|].
      rewrite fmap_cons, IH, (strip_fixed _ Hv). reflexivity.
    - constructor; assumption.
    - destruct chunk; [congruence|]. rewrite last_cons_cons, El.
      congruence. }
  unfold reconcile. rewrite Hfences, Hparsed. unfold empty_fallback.
  destruct chunk as [|v vs]; [congruence|]. cbn [is_nil andb].
  rewrite fit_length_same. reflexivity.
Qed.

Lemma echo_answer_keeps_values_witness :
  (BRAND = BRAND \/ BRAND = DESCRIPTION)
  /\ [lit "ga profondo"; lit "Kylie"] <> []
  /\ Forall clean_value [lit "ga profondo"; lit "Kylie"]
  /\ reconcile BRAND 1 [lit "ga profondo"; lit "Kylie"]
       (BRAND ++ LF :: csv_data_for_prompt [lit "ga profondo"; lit "Kylie"])
     = ([lit "ga profondo"; lit "Kylie"], []).
Proof.
  assert (Hc : Forall clean_value [lit "ga profondo"; lit "Kylie"]).
  { repeat constructor; try discriminate;
      try (intros c [= <-]; reflexivity). }
  split; [left; reflexivity|]. split; [discriminate|]. split; [exact Hc|].
  apply (echo_answer_keeps_values BRAND 1 [lit "ga profondo"; lit "Kylie"]
           (or_introl eq_refl) ltac:(discriminate) Hc).
  intros v c [= <-] [= <-]. discriminate.
Defined.

(** ** The run over the jobs *)

Section RunFacts.

Variables PROMPT_TEMPLATE_BRAND PROMPT_TEMPLATE_DESCRIPTION : pystr -> pystr.
Variable create_completion : nat -> pystr -> completion.
Variable chunks_total : nat.
Variable at_raises : at_oracle.

Abbreviation run_step :=
  (chunk_step PROMPT_TEMPLATE_BRAND PROMPT_TEMPLATE_DESCRIPTION
     create_completion chunks_total).
Abbreviation run_correct_job :=
  (correct_job PROMPT_TEMPLATE_BRAND PROMPT_TEMPLATE_DESCRIPTION
     create_completion chunks_total).
Abbreviation run_process_job :=
  (process_job PROMPT_TEMPLATE_BRAND PROMPT_TEMPLATE_DESCRIPTION
     create_completion chunks_total at_raises).

Lemma progress_of_app evs1 evs2 :
  progress_of (evs1 ++ evs2) = progress_of evs1 ++ progress_of evs2.
Proof. apply flat_map_app. Qed.

Lemma correct_chunk_no_progress column_type i_chunk chunk response :
  progress_of (correct_chunk column_type i_chunk chunk response).2 = [].
Proof.
  destruct response as [|[content|]]; try reflexivity.
  cbn [correct_chunk]. unfold reconcile, empty_fallback, fit_length.
  destruct (is_nil _ && negb _);
    match goal with
    | |- context [Nat.eqb ?a ?b] => destruct (Nat.eqb a b)
    end; reflexivity.
Qed.

Lemma chunk_step_progress job total st it :
  progress_of (run_step job total st it).2
  = progress_of st.2 ++ [(S st.1.2, chunks_total)].
Proof.
  destruct st as [[corrected done] evs], it as [i_chunk start].
  unfold chunk_step. cbn [fst snd].
  destruct (prompt_to_use _ _ _ _) as [prompt|].
  - pose proof (correct_chunk_no_progress (column_type job) i_chunk
                  (chunk_at (values job) (chunk_size (column_type job)) start)
                  (create_completion done prompt)) as Hn.
    destruct (correct_chunk _ _ _ _) as [vals evs2]. cbn [snd] in *.
    rewrite !progress_of_app, Hn. cbn [progress_of flat_map app].
    rewrite app_nil_r. reflexivity.
  - cbn [snd]. rewrite !progress_of_app. cbn [progress_of flat_map app].
    rewrite app_nil_r. reflexivity.
Qed.

Lemma chunk_loop_progress job total its st :
  progress_of (fold_left (run_step job total) its st).2
  = progress_of st.2
    ++ ((fun k => (k, chunks_total)) <$> seq (S st.1.2) (length its)).
Proof.
  revert st. induction its as [|it its IH]; intros st.
  - simpl. rewrite app_nil_r. reflexivity.
  - cbn [fold_left length seq]. rewrite IH, chunk_step_progress.
    destruct (chunk_step_counts PROMPT_TEMPLATE_BRAND
                PROMPT_TEMPLATE_DESCRIPTION create_completion chunks_total
                job total st it) as [_ ->].
    rewrite fmap_cons, <- app_assoc. reflexivity.
Qed.

Lemma enumerate_length (l : list nat) :
  length (enumerate_from_1 l) = length l.
Proof.
  unfold enumerate_from_1.
  apply length_zip_with_r_eq. rewrite length_seq. reflexivity.
Qed.

Lemma py_range_length n size :
  0 < size -> length (py_range n size) = ceil_div n size.
Proof.
  intros Hs. pose proof (chunks_count (replicate n []) size Hs) as H.
  unfold chunks in H. rewrite length_fmap, length_replicate in H. exact H.
Qed.

(** One job leaves a run state, never an exception, when its sheet is in
    the workbook; the sheets stay the same. *)
Lemma process_job_some job st :
  is_Some (workbook st !! sheet job) ->
  exists st',
    run_process_job job st = Some st'
    /\ chunks_done st'
       = chunks_done st
         + ceil_div (length (values job)) (chunk_size (column_type job))
    /\ dom (workbook st') = dom (workbook st).
Proof.
  intros [df Hdf]. unfold process_job.
  pose proof (chunk_size_pos (column_type job)) as Hpos.
  destruct (values job) as [|v vs] eqn:Ev; cbn [is_nil].
  - exists st. split; [reflexivity|]. split; [|reflexivity].
    cbn [length]. rewrite (ceil_div_zero _ Hpos). lia.
  - pose proof (correct_job_counts PROMPT_TEMPLATE_BRAND
                  PROMPT_TEMPLATE_DESCRIPTION create_completion chunks_total
                  job (chunks_done st) (log st)) as [_ Hd].
    destruct (correct_job _ _ _ _ _ _ _) as [[corr done] evs].
    cbn [fst snd] in Hd. rewrite Ev in Hd. unfold merge_back.
    cbn [workbook chunks_done log].
    destruct (Nat.eqb _ _).
    + rewrite Hdf. destruct (write_back _ _ _ _ _) as [df' evs'].
      eexists. split; [reflexivity|]. cbn [workbook chunks_done].
      split; [exact Hd|].
      rewrite dom_insert_L.
      apply subseteq_union_1_L, singleton_subseteq_l, elem_of_dom. eauto.
    + eexists. split; [reflexivity|]. cbn [workbook chunks_done].
      split; [exact Hd|reflexivity].
Qed.

End RunFacts.

(** X6.  Whatever the service answers or raises for the chunks of a job,
    of any kind, the loop over the chunks collects exactly one corrected
    value per value of the job and counts every chunk once. *)
Theorem corrected_values_stay_aligned :
  forall (PB PD : pystr -> pystr) (create : nat -> pystr -> completion)
         (chunks_total : nat) (job : Job) (done : nat) (evs : list event),
    let r := correct_job PB PD create chunks_total job done evs in
    length r.1.1 = length (values job)
    /\ r.1.2 = done + ceil_div (length (values job))
                        (chunk_size (column_type job)).
Proof. intros. apply correct_job_counts. Qed.

(** X7.  The progress reports of a job are the counts that follow the
    number of chunks done before it, one by one and in order, each over
    the same total: one report per chunk, whether the chunk was
    corrected, repaired or kept. *)
Theorem progress_reports_count_up :
  forall (PB PD : pystr -> pystr) (create : nat -> pystr -> completion)
         (chunks_total : nat) (job : Job) (done : nat) (evs : list event),
    progress_of (correct_job PB PD create chunks_total job done evs).2
    = progress_of evs
      ++ ((fun k => (k, chunks_total))
            <$> seq (S done)
                  (ceil_div (length (values job))
                     (chunk_size (column_type job)))).
Proof.
  intros. unfold correct_job. rewrite chunk_loop_progress.
  rewrite enumerate_length, py_range_length by apply chunk_size_pos.
  reflexivity.
Qed.

Lemma run_jobs_some (PB PD : pystr -> pystr)
    (create : nat -> pystr -> completion) (chunks_total : nat)
    (at_raises : at_oracle) (jobs : list Job) (st : RunState) :
  (forall job, job ∈ jobs -> is_Some (workbook st !! sheet job)) ->
  exists st',
    run_jobs PB PD create chunks_total at_raises jobs st = Some st'
    /\ chunks_done st' = chunks_done st + total_chunks jobs
    /\ dom (workbook st') = dom (workbook st).
Proof.
  revert st. induction jobs as [|job jobs IH]; intros st Hsheets.
  - exists st. split; [reflexivity|]. split; [|reflexivity].
    change (total_chunks []) with 0. lia.
  - destruct (process_job_some PB PD create chunks_total at_raises job st)
      as (st1 & E1 & D1 & W1); [apply Hsheets; left|].
    destruct (IH st1) as (st' & E & D & W).
    { intros j Hj. apply elem_of_dom. rewrite W1. apply elem_of_dom.
      apply Hsheets. right. exact Hj. }
    exists st'. cbn [run_jobs]. rewrite E1. split; [exact E|].
    split; [|congruence].
    rewrite D, D1.
    change (total_chunks (job :: jobs))
      with (ceil_div (length (values job)) (chunk_size (column_type job))
            + total_chunks jobs).
    lia.
Qed.

(** X8.  A run over jobs whose sheets are in the workbook ends without
    an exception, has then counted the chunks of all jobs (the total of
    line 504), and leaves the workbook with the sheets it had, whatever
    the service answers and whether the stores of the write-back
    succeed or raise. *)
Theorem run_counts_every_chunk :
  forall (PB PD : pystr -> pystr) (create : nat -> pystr -> completion)
         (chunks_total : nat) (at_raises : at_oracle)
         (jobs : list Job) (st : RunState),
    (forall job, job ∈ jobs -> is_Some (workbook st !! sheet job)) ->
    exists st',
      run_jobs PB PD create chunks_total at_raises jobs st = Some st'
      /\ chunks_done st' = chunks_done st + total_chunks jobs
      /\ dom (workbook st') = dom (workbook st).
Proof. intros. apply run_jobs_some. assumption. Qed.

Lemma run_counts_every_chunk_witness :
  (forall job, job ∈ [example_brand_job] ->
               is_Some (workbook example_state !! sheet job))
  /\ exists st',
       run_jobs example_template example_template service_down 1
         at_refuses [example_brand_job] example_state = Some st'
       /\ chunks_done st' = 1.
Proof.
  assert (H : forall job, job ∈ [example_brand_job] ->
                          is_Some (workbook example_state !! sheet job)).
  { intros job Hj. apply list_elem_of_singleton in Hj as ->.
    exists example_df. vm_compute. reflexivity. }
  split; [exact H|].
  destruct (run_counts_every_chunk example_template example_template
              service_down 1 at_refuses [example_brand_job] example_state H)
    as (st' & E & D & _).
  exists st'. split; [exact E|]. rewrite D. reflexivity.
Defined.

(** ** Jobs taken from a table, through the pipeline *)

Lemma column_job_inv sheet_name df target job :
  target = BRAND \/ target = DESCRIPTION ->
  df_wf df ->
  job ∈ column_job sheet_name df target ->
  sheet job = sheet_name
  /\ column_type job = target
  /\ values job <> []
  /\ length (indices job) = length (values job)
  /\ NoDup (indices job)
  /\ Forall (fun i => i ∈ df_index df) (indices job).
Proof.
  intros Ht Hwf Hjob.
  pose proof (sorted_labels_nodup _ Hwf) as Hnd.
  destruct (get_actual_column_name (df_columns df) target) as [col|] eqn:Hcol;
    [|unfold column_job in Hjob; rewrite Hcol in Hjob; inversion Hjob].
  rewrite (column_job_eq sheet_name df target col Ht Hnd Hcol) in Hjob.
  cbv zeta in Hjob.
  assert (Hs : StronglySorted Z.lt
                 (List.filter (fun ic => mask ic.2) (column df col)).*1).
  { apply filter_sorted. rewrite column_labels. exact Hwf. }
  assert (Hsub : Forall (fun i => i ∈ df_index df)
                   (List.filter (fun ic => mask ic.2) (column df col)).*1).
  { rewrite <- (column_labels df col). apply Forall_forall. intros i Hi.
    apply list_elem_of_fmap in Hi as ([i' c] & -> & Hin).
    apply list_elem_of_In, filter_In in Hin as [Hin _].
    apply list_elem_of_fmap. exists (i', c).
    split; [reflexivity|apply list_elem_of_In, Hin]. }
  destruct (List.filter (fun ic => mask ic.2) (column df col)) as [|e el];
    cbn [is_nil] in Hjob; [inversion Hjob|].
  apply list_elem_of_singleton in Hjob as ->.
  cbn [sheet column_type indices values].
  split; [reflexivity|]. split; [reflexivity|].
  split; [rewrite !fmap_cons; discriminate|].
  split; [rewrite !length_fmap; reflexivity|].
  split; [apply sorted_labels_nodup, Hs|exact Hsub].
Qed.



Section UnknownKind.

Variables PB PD : pystr -> pystr.
Variable chunks_total : nat.

Lemma prompt_to_use_none column_type csv_data :
  column_type <> BRAND -> column_type <> DESCRIPTION ->
  prompt_to_use PB PD column_type csv_data = None.
Proof.
  intros Hb Hd. unfold prompt_to_use, eqb.
  rewrite !bool_decide_eq_false_2 by assumption. reflexivity.
Qed.

Lemma unknown_kind_loop create job total its corrected done evs :
  column_type job <> BRAND -> column_type job <> DESCRIPTION ->
  fold_left (chunk_step PB PD create chunks_total job total) its
    (corrected, done, evs)
  = (corrected
       ++ concat (chunk_at (values job) (chunk_size (column_type job))
                    <$> its.*2),
     done + length its,
     evs ++ flat_map
              (fun '(k, it) =>
                 [Status_chunk (column_name job) (sheet job) it.1 total;
                  Warn_unknown_type (column_type job);
                  Progress (S (done + k)) chunks_total])
              (zip (seq 0 (length its)) its)).
Proof.
  intros Hb Hd. revert corrected done evs.
  induction its as [|[i_chunk start] its IH]; intros corrected done evs.
  - cbn. rewrite !app_nil_r, Nat.add_0_r. reflexivity.
  - cbn [fold_left]. unfold chunk_step at 2.
    rewrite (prompt_to_use_none _ _ Hb Hd), IH.
    rewrite !fmap_cons, concat_cons. cbn [length seq zip_with flat_map].
    f_equal; [f_equal|].
    + cbn [snd]. rewrite app_assoc. reflexivity.
    + lia.
    + rewrite <- !app_assoc. cbn [app fst]. rewrite Nat.add_0_r.
      do 4 f_equal.
      rewrite <- (fmap_S_seq 0), zip_with_fmap_l.
      clear. generalize (seq 0 (length its)) as ks. intros ks. revert its.
      induction ks as [|k ks IH]; intros [|it its]; try reflexivity.
      cbn [zip_with flat_map]. rewrite IH.
      replace (S done + k) with (done + S k) by lia. reflexivity.
Qed.

End UnknownKind.

(** X10.  A job of another kind than brand and description is never
    sent to the service: the loop over its chunks gives the same result
    for any two services, and its corrected values are the values of the
    job, in chunks of the description size. *)
Theorem unknown_kind_job_is_kept :
  forall (PB PD : pystr -> pystr) (create create' : nat -> pystr -> completion)
         (chunks_total : nat) (job : Job) (done : nat) (evs : list event),
    column_type job <> BRAND ->
    column_type job <> DESCRIPTION ->
    correct_job PB PD create chunks_total job done evs
    = correct_job PB PD create' chunks_total job done evs
    /\ (correct_job PB PD create chunks_total job done evs).1.1 = values job
    /\ chunk_size (column_type job) = CHUNK_DESCRIPTION.
Proof.
  intros PB PD create create' chunks_total job done evs Hb Hd.
  unfold correct_job.
  rewrite !(unknown_kind_loop PB PD chunks_total _ job _ _ [] done evs Hb Hd).
  split; [reflexivity|]. split.
  - cbn [fst app]. unfold enumerate_from_1.
    rewrite snd_zip by (rewrite length_seq; lia).
    apply chunks_concat, chunk_size_pos.
  - unfold chunk_size, eqb. rewrite bool_decide_eq_false_2 by exact Hb.
    reflexivity.
Qed.

Lemma unknown_kind_job_is_kept_witness :
  column_type example_other_job <> BRAND
  /\ column_type example_other_job <> DESCRIPTION
  /\ (correct_job example_template example_template service_header_only 1
        example_other_job 0 []).1.1
     = [lit "ga"; lit "Kylie"].
Proof.
  split; [discriminate|]. split; [discriminate|].
  destruct (unknown_kind_job_is_kept example_template example_template
              service_header_only service_down 1 example_other_job 0 []
              ltac:(discriminate) ltac:(discriminate)) as (_ & -> & _).
  reflexivity.
Defined.

(** ** The correction phase as a whole *)

Lemma extract_jobs_inv (items : list (pystr * DataFrame)) (job : Job) :
  job ∈ extract_jobs items ->
  exists sheet_name df target,
    (sheet_name, df) ∈ items
    /\ (target = BRAND \/ target = DESCRIPTION)
    /\ job ∈ column_job sheet_name df target.
Proof.
  unfold extract_jobs. rewrite list_elem_of_In, in_flat_map.
  intros ([sheet_name df] & Hin & Hjob).
  apply list_elem_of_In in Hin, Hjob. unfold sheet_jobs in Hjob.
  apply elem_of_app in Hjob as [Hjob|Hjob].
  - exists sheet_name, df, BRAND. auto.
  - exists sheet_name, df, DESCRIPTION. auto.
Qed.

Lemma total_chunks_pos (jobs : list Job) :
  jobs <> [] -> (forall job, job ∈ jobs -> values job <> []) ->
  0 < total_chunks jobs.
Proof.
  destruct jobs as [|job jobs]; [congruence|]. intros _ H.
  change (total_chunks (job :: jobs))
    with (ceil_div (length (values job)) (chunk_size (column_type job))
          + total_chunks jobs).
  rewrite (ceil_div_step _ (chunk_size_pos _)); [lia|].
  specialize (H job ltac:(left)). destruct (values job); [congruence|].
  simpl. lia.
Qed.

(** X11.  For a workbook whose tables have ascending row labels, the
    correction phase always ends without an exception.  With no job it
    reports that there is nothing to correct and leaves the workbook as
    it is.  With jobs, the total of chunks is positive (the branch for a
    total of zero is never taken), the phase ends with exactly that many
    chunks done, and the workbook keeps its sheets. *)
Theorem correction_phase_completes :
  forall (PB PD : pystr -> pystr) (create : nat -> pystr -> completion)
         (at_raises : at_oracle) (items : list (pystr * DataFrame)),
    (forall sheet_name df, (sheet_name, df) ∈ items -> df_wf df) ->
    let jobs := extract_jobs items in
    (jobs = [] ->
     correction_phase PB PD create at_raises items
     = Some {| workbook := list_to_map items; chunks_done := 0;
               log := [Err_no_jobs] |})
    /\ (jobs <> [] ->
        0 < total_chunks jobs
        /\ exists st',
             correction_phase PB PD create at_raises items = Some st'
             /\ chunks_done st' = total_chunks jobs
             /\ dom (workbook st')
                = dom (list_to_map items : gmap pystr DataFrame)).
Proof.
  intros PB PD create ar items Hwf jobs. unfold correction_phase. fold jobs.
  split.
  - intros ->. reflexivity.
  - intros Hne.
    assert (Hpos : 0 < total_chunks jobs).
    { apply total_chunks_pos; [exact Hne|]. intros job Hjob.
      apply extract_jobs_inv in Hjob as (n & df & t & Hin & Ht & Hjob).
      apply (column_job_inv n df t job Ht (Hwf n df Hin) Hjob). }
    split; [exact Hpos|].
    replace (is_nil jobs) with false
      by (destruct jobs; [congruence|reflexivity]).
    rewrite (proj2 (Nat.eqb_neq _ _)) by lia.
    destruct (run_jobs_some PB PD create (total_chunks jobs) ar jobs
                {| workbook := list_to_map items; chunks_done := 0;
                   log := [Status_starting] |})
      as (st' & E & D & W).
    { intros job Hjob. cbn [workbook].
      apply extract_jobs_inv in Hjob as (n & df & t & Hin & Ht & Hjob).
      destruct (column_job_inv n df t job Ht (Hwf n df Hin) Hjob)
        as (-> & _).
      destruct (list_to_map items !! n) as [d|] eqn:El; [eauto|].
      apply not_elem_of_list_to_map_2 in El. exfalso. apply El.
      apply list_elem_of_fmap. exists (n, df). auto. }
    exists st'. split; [exact E|]. split; [exact D|exact W].
Qed.

Lemma correction_phase_completes_witness :
  (forall sheet_name df,
      (sheet_name, df) ∈ [(lit "S", example_df)] -> df_wf df)
  /\ extract_jobs [(lit "S", example_df)] <> []
  /\ exists st',
       correction_phase example_template example_template service_down
         at_refuses [(lit "S", example_df)] = Some st'
       /\ chunks_done st' = 2.
Proof.
  assert (Hwf : forall sheet_name df,
             (sheet_name, df) ∈ [(lit "S", example_df)] -> df_wf df).
  { intros n df H. apply list_elem_of_singleton in H as [= -> ->].
    exact example_df_wf. }
  assert (Hne : extract_jobs [(lit "S", example_df)] <> [])
    by (vm_compute; discriminate).
  split; [exact Hwf|]. split; [exact Hne|].
  destruct (correction_phase_completes example_template example_template
              service_down at_refuses [(lit "S", example_df)] Hwf) as [_ H].
  destruct (H Hne) as (_ & st' & E & D & _).
  exists st'. split; [exact E|]. rewrite D. vm_compute. reflexivity.
Defined.

(** ** The SKU filter *)

Section SkuFacts.

Variable unicode_decimal : N -> bool.

Abbreviation numeric := (sku_is_numeric unicode_decimal).
Abbreviation decimal := (is_decimal unicode_decimal).
Abbreviation sku_keep := (sku_keep unicode_decimal).

Lemma digits_dollar_digits (ds : pystr) :
  ds <> [] -> Forall (fun c => decimal c = true) ds ->
  numeric ds = true /\ numeric (ds ++ [LF]) = true.
Proof.
  unfold sku_is_numeric. intros Hne Hds.
  induction Hds as [|c ds Hc Hds IH]; [congruence|].
  destruct ds as [|d ds].
  - cbn. rewrite Hc. split; reflexivity.
  - destruct IH as [IH1 IH2]; [discriminate|].
    cbn [digits_dollar app] in *. rewrite Hc. cbn [andb].
    split; apply orb_true_iff; left; assumption.
Qed.

Lemma digits_dollar_spec (s : pystr) :
  numeric s = true <->
  exists ds, ds <> [] /\ Forall (fun c => decimal c = true) ds
             /\ (s = ds \/ s = ds ++ [LF]).
Proof.
  unfold sku_is_numeric. split.
  - induction s as [|c r IH]; [discriminate|]. cbn [digits_dollar].
    intros [Hc H]%andb_true_iff. apply orb_true_iff in H as [H|H].
    + destruct (IH H) as (ds & _ & Hds & Hs).
      exists (c :: ds). split; [discriminate|].
      split; [constructor; assumption|].
      destruct Hs as [-> | ->]; [left|right]; reflexivity.
    + exists [c]. split; [discriminate|].
      split; [repeat constructor; exact Hc|].
      destruct r as [|d [|e r]]; [left; reflexivity| |discriminate].
      simpl in H. apply N.eqb_eq in H as ->. right. reflexivity.
  - intros (ds & Hne & Hds & Hs).
    destruct (digits_dollar_digits ds Hne Hds) as [H1 H2].
    destruct Hs as [-> | ->]; assumption.
Qed.

Lemma sku_column_not_empty cols col :
  get_actual_column_name cols (lit "SKU code") = Some col ->
  is_nil col = false.
Proof.
  intros H. apply find_some in H as [_ H].
  destruct col; [discriminate|reflexivity].
Qed.

Lemma clean_sku_eq df (col : pystr) :
  get_actual_column_name (df_columns df) (lit "SKU code") = Some col ->
  clean_sku unicode_decimal df
  = {| df_columns := df_columns df;
       df_rows := List.filter (sku_keep col) (sku_row col <$> df_rows df) |}.
Proof.
  intros H. unfold clean_sku. rewrite H, (sku_column_not_empty _ _ H).
  reflexivity.
Qed.

Lemma sku_row_cell (col : pystr) ir :
  row_cell col (sku_row col ir).2 = Val (astype_str (row_cell col ir.2)).
Proof. unfold sku_row, row_cell. cbn [snd]. rewrite lookup_insert_eq. reflexivity. Qed.

Lemma sku_row_twice (col : pystr) ir : sku_row col (sku_row col ir) = sku_row col ir.
Proof.
  unfold sku_row at 1. rewrite sku_row_cell. cbn [astype_str].
  unfold sku_row. cbn [fst snd]. rewrite insert_insert_eq. reflexivity.
Qed.

Lemma sku_keep_row (col : pystr) ir : sku_keep col (sku_row col ir) = sku_keep col ir.
Proof. unfold sku_keep. rewrite sku_row_cell. reflexivity. Qed.

Lemma filter_twice {A} (f : A -> bool) (l : list A) :
  List.filter f (List.filter f l) = List.filter f l.
Proof.
  induction l as [|a l IH]; [reflexivity|]. simpl.
  destruct (f a) eqn:E; simpl; rewrite ?E, IH; reflexivity.
Qed.

Lemma sku_rows_fixed (col : pystr) (rows : list (Z * gmap pystr cell)) :
  sku_row col <$> List.filter (sku_keep col) (sku_row col <$> rows)
  = List.filter (sku_keep col) (sku_row col <$> rows).
Proof.
  induction rows as [|ir rows IH]; [reflexivity|].
  rewrite fmap_cons. cbn [List.filter].
  destruct (sku_keep col (sku_row col ir)); [|exact IH].
  rewrite fmap_cons, IH, sku_row_twice. reflexivity.
Qed.

End SkuFacts.

(** X12.  The SKU test of line 446 accepts exactly the texts that are
    one or more decimal digits, optionally followed by one final line
    feed.  So the text of a missing SKU ("nan"), an empty text and a
    number with a decimal point are refused, whatever digits Unicode
    has beyond ASCII. *)
Theorem sku_test_accepts_digit_strings :
  forall (unicode_decimal : N -> bool) (s : pystr),
    (sku_is_numeric unicode_decimal s = true <->
     exists ds, ds <> []
                /\ Forall (fun c => is_decimal unicode_decimal c = true) ds
                /\ (s = ds \/ s = ds ++ [LF]))
    /\ sku_is_numeric unicode_decimal (lit "nan") = false
    /\ sku_is_numeric unicode_decimal [] = false
    /\ sku_is_numeric unicode_decimal (lit "12345.0") = false
    /\ sku_is_numeric unicode_decimal (lit "0012345") = true.
Proof.
  intros. split; [apply digits_dollar_spec|]. repeat split; reflexivity.
Qed.

(** X13.  The SKU filter keeps the columns of the table and drops rows
    only: a table with ascending row labels stays one.  With a SKU
    column, the rows left are exactly the rows whose SKU text passes the
    test, each with its SKU cell turned into that text and every other
    cell as it was; without the column the table is unchanged. *)
Theorem clean_sku_keeps_numeric_rows :
  forall (unicode_decimal : N -> bool) (df : DataFrame),
    df_columns (clean_sku unicode_decimal df) = df_columns df
    /\ (df_wf df -> df_wf (clean_sku unicode_decimal df))
    /\ match get_actual_column_name (df_columns df) (lit "SKU code") with
       | None => clean_sku unicode_decimal df = df
       | Some col =>
           forall i r',
             (i, r') ∈ df_rows (clean_sku unicode_decimal df) <->
             exists r s,
               (i, r) ∈ df_rows df
               /\ s = astype_str (row_cell col r)
               /\ sku_is_numeric unicode_decimal s = true
               /\ r' = <[col := Val s]> r
       end.
Proof.
  intros ud df.
  destruct (get_actual_column_name (df_columns df) (lit "SKU code"))
    as [col|] eqn:Hcol.
  - rewrite (clean_sku_eq ud df col Hcol). cbn [df_columns df_rows].
    split; [reflexivity|]. split.
    + unfold df_wf, df_index. cbn [df_rows]. intros Hwf.
      apply filter_sorted.
      rewrite <- list_fmap_compose.
      erewrite list_fmap_ext; [exact Hwf|]. intros _ [i r] _. reflexivity.
    + intros i r'. rewrite list_elem_of_In, filter_In, <- list_elem_of_In.
      rewrite list_elem_of_fmap. split.
      * intros [(ir & E & Hin) Hk]. rewrite E, sku_keep_row in Hk.
        destruct ir as [j r]. injection E as -> ->.
        exists r, (astype_str (row_cell col r)).
        split; [exact Hin|]. split; [reflexivity|]. split; [|reflexivity].
        exact Hk.
      * intros (r & s & Hin & -> & Hk & ->). split.
        -- exists (i, r). split; [reflexivity|exact Hin].
        -- change (i, <[col := Val (astype_str (row_cell col r))]> r)
             with (sku_row col (i, r)).
           rewrite sku_keep_row. exact Hk.
  - unfold clean_sku. rewrite Hcol. split; [reflexivity|].
    split; [auto|reflexivity].
Qed.

(** X14.  Filtering an already filtered table again changes nothing. *)
Theorem clean_sku_idempotent :
  forall (unicode_decimal : N -> bool) (df : DataFrame),
    clean_sku unicode_decimal (clean_sku unicode_decimal df)
    = clean_sku unicode_decimal df.
Proof.
  intros ud df.
  destruct (get_actual_column_name (df_columns df) (lit "SKU code"))
    as [col|] eqn:Hcol.
  - rewrite (clean_sku_eq ud df col Hcol).
    rewrite (clean_sku_eq ud _ col) by exact Hcol.
    cbn [df_columns df_rows]. f_equal.
    rewrite sku_rows_fixed. apply filter_twice.
  - unfold clean_sku. rewrite !Hcol. reflexivity.
Qed.

(** ** The final transformations *)

Section DerivedFacts.

Variable unicode_upper : N -> list N.

Abbreviation status_of := (status_to_set unicode_upper).
Abbreviation up := (upper unicode_upper).

Implicit Types (s p v : pystr).

Lemma eqb_true s p : eqb s p = true -> s = p.
Proof. unfold eqb. apply bool_decide_eq_true_1. Qed.

Lemma status_range s :
  status_of s = [] \/ status_of s = lit "only"
  \/ status_of s = lit "now" \/ status_of s = lit "RRP".
Proof.
  unfold status_to_set. cbv zeta.
  repeat match goal with
         | |- context [if ?b then _ else _] => destruct b
         end; auto.
Qed.

(** The test of line 659 repeats the negation of line 652, which has
    failed at that point: an offer that mentions "only" has a status. *)
Lemma status_with_only s :
  contains (lower s) (lit "only") = true ->
  status_of s = lit "only" \/ status_of s = lit "now".
Proof.
  intros H. unfold status_to_set. cbv zeta. rewrite H.
  destruct (startswith (lower s) (lit "save " ++ [POUND])
            && contains (lower s) (lit "on rrp")); [auto|].
  destruct (startswith (lower s) (lit "save ") && endswith s (lit "%"));
    [auto|].
  destruct (startswith (lower s) (lit "save " ++ [POUND])); auto.
Qed.

Lemma price_shape status now_val rrp_val :
  price_text status now_val rrp_val = []
  \/ ((status = lit "now" \/ status = lit "only")
      /\ now_val <> [] /\ price_text status now_val rrp_val = POUND :: now_val)
  \/ (status = lit "RRP"
      /\ rrp_val <> [] /\ price_text status now_val rrp_val = POUND :: rrp_val).
Proof.
  unfold price_text. cbv zeta.
  destruct (eqb status (lit "now")) eqn:E1;
    [|destruct (eqb status (lit "only")) eqn:E2]; cbn [orb andb].
  - apply eqb_true in E1.
    destruct now_val as [|c r]; cbn [is_nil negb].
    + subst status. left. reflexivity.
    + right. left. split; [auto|]. split; [discriminate|reflexivity].
  - apply eqb_true in E2.
    destruct now_val as [|c r]; cbn [is_nil negb].
    + subst status. left. reflexivity.
    + right. left. split; [auto|]. split; [discriminate|reflexivity].
  - destruct (eqb status (lit "RRP")) eqn:E3; cbn [andb]; [|auto].
    apply eqb_true in E3.
    destruct rrp_val as [|c r]; cbn [is_nil negb]; [auto|].
    right. right. split; [auto|]. split; [discriminate|reflexivity].
Qed.

Lemma caveat_ends b d t s_val uom :
  endswith (caveat_text b d t s_val uom) CAVEAT_END = true.
Proof. unfold caveat_text. cbv zeta. apply endswith_app. Qed.

End DerivedFacts.

Lemma derived_names_differ :
  lit "Status" <> lit "Price" /\ lit "Status" <> lit "Caveat"
  /\ lit "Price" <> lit "Caveat".
Proof. repeat split; discriminate. Qed.

(** X15.  After the final transformations every row has a Status, a
    Price and a Caveat cell, whatever columns the sheet has.  The status
    is empty or one of "only", "now", "RRP"; the price is empty or the
    pound sign followed by a non-empty text, and a row with a price has a
    status; the caveat ends with the fixed sentence. *)
Theorem final_row_cells_are_well_formed :
  forall (unicode_upper unicode_lower : N -> list N)
         (offer_col saving_col now_col rrp_col brand_col desc_col type_col
            size_col uom_col : option pystr)
         (row : gmap pystr cell),
    let row' := final_row unicode_upper unicode_lower offer_col saving_col now_col rrp_col
                  brand_col desc_col type_col size_col uom_col row in
    exists status price caveat,
      row' !! lit "Status" = Some (Val status)
      /\ row' !! lit "Price" = Some (Val price)
      /\ row' !! lit "Caveat" = Some (Val caveat)
      /\ (status = [] \/ status = lit "only" \/ status = lit "now"
          \/ status = lit "RRP")
      /\ (price = [] \/ exists v, v <> [] /\ price = POUND :: v)
      /\ (price <> [] -> status <> [])
      /\ endswith caveat CAVEAT_END = true.
Proof.
  intros uu ul oc sc nc rc bc dc tc zc uc row row'.
  destruct derived_names_differ as (Hsp & Hsc & Hpc).
  subst row'. unfold final_row. cbv zeta.
  set (row1 := match truthy oc with Some _ => _ | None => row end).
  set (row2a := <[lit "Status" := Val []]> row1).
  set (row2 := match truthy oc with Some _ => _ | None => row2a end).
  assert (Hst : exists status,
             row2 !! lit "Status" = Some (Val status)
             /\ (status = [] \/ status = lit "only" \/ status = lit "now"
                 \/ status = lit "RRP")).
  { subst row2. destruct (truthy oc) as [o|].
    - eexists. split; [apply lookup_insert_eq|apply status_range].
    - exists []. split; [apply lookup_insert_eq|auto]. }
  destruct Hst as (status & Hstat & Hrange).
  set (row3a := <[lit "Price" := Val []]> row2).
  assert (Hread : astype_str (row_cell (lit "Status") row3a) = status).
  { unfold row_cell. subst row3a.
    rewrite lookup_insert_ne by congruence. rewrite Hstat. reflexivity. }
  rewrite Hread.
  set (price := price_text status (cell_text nc row3a) (cell_text rc row3a)).
  set (row3 := <[lit "Price" := Val price]> row3a).
  set (row4a := <[lit "Caveat" := Val []]> row3).
  eexists status, price, _.
  split; [|split; [|split; [|split; [exact Hrange|]]]].
  - subst row4a row3 row3a.
    rewrite !lookup_insert_ne by congruence. exact Hstat.
  - subst row4a row3.
    rewrite !lookup_insert_ne by congruence. apply lookup_insert_eq.
  - apply lookup_insert_eq.
  - split; [|split; [|apply caveat_ends]].
    + destruct (price_shape status (cell_text nc row3a) (cell_text rc row3a))
        as [H|[(_ & Hne & H)|(_ & Hne & H)]]; fold price in H; eauto.
    + intros Hp.
      destruct (price_shape status (cell_text nc row3a) (cell_text rc row3a))
        as [H|[([-> | ->] & _)|(-> & _)]]; [|discriminate..].
      fold price in H. contradiction.
Qed.

Section OfferFacts.

Local Open Scope N_scope.

Variable unicode_upper : N -> list N.

Abbreviation status_of' := (status_to_set unicode_upper).
Abbreviation up' := (upper unicode_upper).

Implicit Types (s p x : pystr).

Lemma contains_here s p : startswith s p = true -> contains s p = true.
Proof. intros H. destruct s; simpl; rewrite H; reflexivity. Qed.

Lemma contains_later c s p : contains s p = true -> contains (c :: s) p = true.
Proof. intros H. cbn [contains]. rewrite H. apply orb_true_r. Qed.

Lemma contains_app a p b : contains (a ++ p ++ b) p = true.
Proof.
  induction a as [|c a IH].
  - rewrite app_nil_l. apply contains_here, startswith_app.
  - apply contains_later, IH.
Qed.

Lemma contains_absent a s p :
  Forall (fun c => c <> a) s -> contains s (a :: p) = false.
Proof.
  induction 1 as [|c s Hc _ IH]; [reflexivity|].
  cbn [contains startswith]. rewrite IH.
  rewrite (proj2 (N.eqb_neq a c)) by congruence. reflexivity.
Qed.

Lemma upper_app s x : up' (s ++ x) = up' s ++ up' x.
Proof. unfold upper. apply flat_map_app. Qed.

Lemma upper_same_ignoring_case s p :
  same_ignoring_case s p -> up' s = up' p.
Proof.
  induction 1 as [|c q s p Hcq _ IH]; [reflexivity|].
  change (up' (c :: s)) with (upper_cp unicode_upper c ++ up' s).
  change (up' (q :: p)) with (upper_cp unicode_upper q ++ up' p).
  rewrite IH. f_equal. destruct Hcq as [->|[Hc <-]]; [reflexivity|].
  unfold upper_cp.
  destruct (N.leb_spec 97 c), (N.leb_spec c 122); try lia.
  all: destruct (N.leb_spec 97 (c + 32)), (N.leb_spec (c + 32) 122);
    try lia; cbn [andb].
  all: destruct (N.ltb_spec c 128); try lia; cbn [orb].
  all: f_equal; lia.
Qed.

(** An offer that begins with "save " in some mix of cases has an upper
    case that begins with "SAVE ". *)
Lemma lower_save_upper s :
  startswith (lower s) (lit "save ") = true ->
  exists pre rest,
    s = pre ++ rest /\ length pre = 5%nat
    /\ last pre = Some 32 /\ up' s = lit "SAVE " ++ up' rest.
Proof.
  intros H. apply lower_startswith in H as (pre & rest & -> & Hpre).
  - exists pre, rest. split; [reflexivity|].
    split; [apply Forall2_length in Hpre; exact Hpre|]. split.
    + change (lit "save ") with [115; 97; 118; 101; 32] in Hpre.
      unfold same_ignoring_case in Hpre.
      repeat match goal with
             | H : Forall2 _ _ (_ :: _) |- _ =>
                 apply Forall2_cons_inv_r in H as (? & ? & ? & ? & ->)
             | H : Forall2 _ _ [] |- _ => apply Forall2_nil_inv_r in H as ->
             end.
      match goal with
      | H : ?c = 32 \/ _ |- _ => destruct H as [->|[? ?]]; [reflexivity|lia]
      end.
    + rewrite upper_app, (upper_same_ignoring_case _ _ Hpre). reflexivity.
  - change (lit "save ") with [115; 97; 118; 101; 32].
    repeat constructor; lia.
Qed.

Lemma lower_save_not_short s x :
  startswith (lower s) (lit "save ") = true ->
  up' s = x -> (length x < 5)%nat -> False.
Proof.
  intros H E L. apply lower_save_upper in H as (_ & rest & _ & _ & _ & H).
  rewrite H in E. subst x. rewrite length_app in L. simpl in L. lia.
Qed.

Lemma endswith_single s c : endswith s [c] = true <-> last s = Some c.
Proof.
  unfold endswith. change (reverse [c]) with [c].
  rewrite <- head_reverse. destruct (reverse s) as [|d r]; simpl.
  - split; discriminate.
  - rewrite andb_true_r, N.eqb_eq. split; congruence.
Qed.

Lemma lower_save_pound x :
  lower (lit "save " ++ POUND :: x) = lit "save " ++ POUND :: lower x.
Proof. reflexivity. Qed.

(** Line 652 for an offer written by line 621. *)
Lemma status_save_on_rrp x :
  status_of' (lit "save " ++ POUND :: x ++ lit " on RRP") = lit "only".
Proof.
  unfold status_to_set. cbv zeta. rewrite lower_save_pound, lower_app.
  change (lower (lit " on RRP")) with (lit " on rrp").
  replace (startswith (lit "save " ++ POUND :: lower x ++ lit " on rrp")
             (lit "save " ++ [POUND])) with true by reflexivity.
  replace (contains (lit "save " ++ POUND :: lower x ++ lit " on rrp")
             (lit "on rrp")) with true; [reflexivity|].
  symmetry.
  replace (lit "save " ++ POUND :: lower x ++ lit " on rrp")
    with ((lit "save " ++ POUND :: lower x ++ [32]) ++ lit "on rrp" ++ []).
  - apply contains_app.
  - rewrite <- app_assoc, <- app_comm_cons, <- app_assoc. reflexivity.
Qed.

(** Lines 652-657 for an offer written by line 626. *)
Lemma status_save_amount x :
  status_of' (lit "save " ++ POUND :: x)
  = if contains (lower (lit "save " ++ POUND :: x)) (lit "on rrp")
    then lit "only" else lit "now".
Proof.
  unfold status_to_set. cbv zeta. rewrite lower_save_pound.
  replace (startswith (lit "save " ++ POUND :: lower x)
             (lit "save " ++ [POUND])) with true by reflexivity.
  cbn [andb].
  destruct (contains _ (lit "on rrp")); [reflexivity|].
  destruct (_ && _); reflexivity.
Qed.

End OfferFacts.

Lemma lower_without_o (s : pystr) :
  Forall (fun c => c <> 111%N /\ c <> 79%N) s ->
  Forall (fun c => c <> 111%N) (lower s).
Proof.
  induction 1 as [|c s [Ho HO] _ IH]; [constructor|].
  change (lower (c :: s)) with (lower_cp c ++ lower s).
  apply Forall_app. split; [|exact IH].
  destruct (lower_cp_cases c)
    as [[Hc ->]|[[-> ->]|[[-> ->]|(Hc & _ & _ & ->)]]];
    repeat constructor; lia.
Qed.

Lemma price_for_now_or_only (status now_val rrp_val : pystr) :
  status = lit "now" \/ status = lit "only" ->
  price_text status now_val rrp_val
  = if is_nil now_val then [] else POUND :: now_val.
Proof.
  intros [-> | ->]; destruct now_val; reflexivity.
Qed.

(** X16.  A row whose offer mentions "save vs RRP" or "save v RRP" in
    any mix of cases and that has a saving text gets the offer
    "save £<saving> on RRP" and the status "only"; its price is the pound
    sign with the Now text, or empty without one. *)
Theorem offer_save_vs_rrp :
  forall (unicode_upper unicode_lower : N -> list N) (offer rrp saving now_val : pystr),
    contains (upper unicode_upper offer) (lit "SAVE VS RRP")
    || contains (upper unicode_upper offer) (lit "SAVE V RRP") = true ->
    saving <> [] ->
    let offer' := processed_offer unicode_upper unicode_lower offer rrp saving in
    offer' = lit "save " ++ POUND :: saving ++ lit " on RRP"
    /\ status_to_set unicode_upper offer' = lit "only"
    /\ price_text (status_to_set unicode_upper offer') now_val rrp
       = if is_nil now_val then [] else POUND :: now_val.
Proof.
  intros uu ul offer rrp saving now_val H Hs offer'.
  assert (E : offer' = lit "save " ++ POUND :: saving ++ lit " on RRP").
  { subst offer'. unfold processed_offer. cbv zeta. rewrite H.
    destruct saving; [congruence|reflexivity]. }
  split; [exact E|]. rewrite E, status_save_on_rrp.
  split; [reflexivity|]. apply price_for_now_or_only. auto.
Qed.

Lemma offer_save_vs_rrp_witness :
  contains (upper (fun c => [c]) (lit "Save vs RRP")) (lit "SAVE VS RRP")
  || contains (upper (fun c => [c]) (lit "Save vs RRP")) (lit "SAVE V RRP")
  = true
  /\ lit "5" <> []
  /\ processed_offer (fun c => [c]) (fun c => [c]) (lit "Save vs RRP") (lit "30") (lit "5")
     = lit "save " ++ POUND :: lit "5 on RRP".
Proof.
  split; [reflexivity|]. split; [discriminate|].
  destruct (offer_save_vs_rrp (fun c => [c]) (fun c => [c]) (lit "Save vs RRP") (lit "30")
              (lit "5") (lit "25") eq_refl ltac:(discriminate)) as [-> _].
  reflexivity.
Defined.

(** X17.  A row whose offer is the word "save" in any mix of cases and
    that has a saving text gets the offer "save £<saving>"; its status
    is "now", or "only" when the saving text holds "on rrp", and it is
    "now" for a saving text without the letter o. *)
Theorem offer_save_amount :
  forall (unicode_upper unicode_lower : N -> list N) (offer rrp saving : pystr),
    upper unicode_upper offer = lit "SAVE" ->
    saving <> [] ->
    let offer' := processed_offer unicode_upper unicode_lower offer rrp saving in
    offer' = lit "save " ++ POUND :: saving
    /\ status_to_set unicode_upper offer'
       = (if contains (lower offer') (lit "on rrp")
          then lit "only" else lit "now")
    /\ (Forall (fun c => c <> 111%N /\ c <> 79%N) saving ->
        status_to_set unicode_upper offer' = lit "now").
Proof.
  intros uu ul offer rrp saving Hu Hs offer'.
  assert (E : offer' = lit "save " ++ POUND :: saving).
  { subst offer'. unfold processed_offer. cbv zeta. rewrite Hu.
    change (contains (lit "SAVE") (lit "SAVE VS RRP")
            || contains (lit "SAVE") (lit "SAVE V RRP")) with false.
    cbv iota.
    destruct (startswith (lower offer) (lit "save ")) eqn:Hl.
    - exfalso. apply (lower_save_not_short uu offer _ Hl Hu). simpl. lia.
    - cbn [andb]. change (eqb (lit "SAVE") (lit "SAVE")) with true.
      cbv iota. destruct saving; [congruence|reflexivity]. }
  split; [exact E|]. rewrite E, status_save_amount.
  split; [reflexivity|]. intros Ho.
  rewrite lower_save_pound.
  change (lit "on rrp") with (111%N :: lit "n rrp").
  rewrite contains_absent; [reflexivity|].
  change (lit "save ") with [115; 97; 118; 101; 32]%N.
  repeat (constructor; [discriminate|]). apply lower_without_o, Ho.
Qed.

Lemma offer_save_amount_witness :
  upper (fun c => [c]) (lit "Save") = lit "SAVE"
  /\ lit "7.50" <> []
  /\ processed_offer (fun c => [c]) (fun c => [c]) (lit "Save") (lit "30") (lit "7.50")
     = lit "save " ++ POUND :: lit "7.50"
  /\ status_to_set (fun c => [c])
       (processed_offer (fun c => [c]) (fun c => [c]) (lit "Save") (lit "30") (lit "7.50"))
     = lit "now".
Proof.
  split; [reflexivity|]. split; [discriminate|].
  destruct (offer_save_amount (fun c => [c]) (fun c => [c]) (lit "Save") (lit "30")
              (lit "7.50") eq_refl ltac:(discriminate)) as (E & _ & H).
  split; [exact E|]. apply H.
  repeat constructor; discriminate.
Defined.

Lemma lower_same_fixed (s t : pystr) :
  same_ignoring_case s t ->
  Forall (fun p => lower_cp p = [p]) t -> lower s = t.
Proof.
  induction 1 as [|c p s t Hcp _ IH]; intros Ht; [reflexivity|].
  apply Forall_cons_1 in Ht as [Hp Ht].
  change (lower (c :: s)) with (lower_cp c ++ lower s).
  rewrite (IH Ht). destruct Hcp as [->|[Hc <-]].
  - rewrite Hp. reflexivity.
  - destruct (lower_cp_cases c)
      as [[_ ->]|[[-> _]|[[-> _]|(Hn & _)]]]; [reflexivity|lia..].
Qed.

(** An offer that begins with "save " in some mix of cases splits after
    its fifth character. *)
Lemma lower_save_split (s : pystr) :
  startswith (lower s) (lit "save ") = true ->
  exists pre, s = pre ++ drop 5 s /\ length pre = 5%nat
              /\ lower pre = lit "save " /\ last pre = Some 32%N.
Proof.
  intros H. apply lower_startswith in H as (pre & rest & -> & Hpre).
  - assert (L : length pre = 5%nat) by (apply Forall2_length in Hpre; exact Hpre).
    exists pre. rewrite drop_app_length' by (symmetry; exact L).
    split; [reflexivity|]. split; [exact L|]. split.
    + apply lower_same_fixed; [exact Hpre|].
      change (lit "save ") with [115; 97; 118; 101; 32]%N.
      repeat constructor.
    + change (lit "save ") with [115; 97; 118; 101; 32]%N in Hpre.
      unfold same_ignoring_case in Hpre.
      repeat match goal with
             | H : Forall2 _ _ (_ :: _) |- _ =>
                 apply Forall2_cons_inv_r in H as (? & ? & ? & ? & ->)
             | H : Forall2 _ _ [] |- _ => apply Forall2_nil_inv_r in H as ->
             end.
      match goal with
      | H : ?c = 32%N \/ _ |- _ => destruct H as [->|[? ?]]; [reflexivity|lia]
      end.
  - change (lit "save ") with [115; 97; 118; 101; 32]%N.
    repeat constructor; lia.
Qed.

(** X18.  A percentage offer, one that begins with "save " in any mix of
    cases and ends with the percent sign, keeps its text after the fifth
    character and gets the prefix "save ": only the case of the first
    word changes.  Its status is "now" (or "only" when the text after
    "save " begins with the pound sign and holds "on rrp"), so its price
    is the pound sign with the Now text. *)
Theorem offer_save_percent :
  forall (unicode_upper unicode_lower : N -> list N) (offer rrp saving now_val : pystr),
    contains (upper unicode_upper offer) (lit "SAVE VS RRP")
    || contains (upper unicode_upper offer) (lit "SAVE V RRP") = false ->
    startswith (lower offer) (lit "save ") = true ->
    endswith offer (lit "%") = true ->
    let offer' := processed_offer unicode_upper unicode_lower offer rrp saving in
    offer' = lit "save " ++ drop 5 offer
    /\ lower offer' = lower offer
    /\ length offer' = length offer
    /\ (status_to_set unicode_upper offer' = lit "now"
        \/ status_to_set unicode_upper offer' = lit "only")
    /\ price_text (status_to_set unicode_upper offer') now_val rrp
       = if is_nil now_val then [] else POUND :: now_val.
Proof.
  intros uu ul offer rrp saving now_val H1 H2 H3 offer'.
  assert (E : offer' = lit "save " ++ drop 5 offer).
  { subst offer'. unfold processed_offer. cbv zeta.
    rewrite H1, H2, H3. reflexivity. }
  destruct (lower_save_split offer H2) as (pre & Hs & L & Hl & Hlast).
  assert (El : lower offer' = lower offer).
  { rewrite E, Hs at 1. rewrite drop_app_length' by (symmetry; exact L).
    rewrite Hs at 2. rewrite !lower_app, Hl. reflexivity. }
  assert (St : status_to_set uu offer' = lit "now"
               \/ status_to_set uu offer' = lit "only").
  { unfold status_to_set. cbv zeta. rewrite El, H2.
    destruct (_ && contains _ _); [right; reflexivity|left].
    replace (endswith offer' (lit "%")) with true; [reflexivity|].
    symmetry. change (lit "%") with [37%N] in *.
    apply endswith_single. apply endswith_single in H3.
    rewrite E. rewrite Hs in H3.
    destruct (drop 5 offer) as [|d r] eqn:Hd.
    - rewrite app_nil_r in H3. congruence.
    - rewrite last_app_cons in H3. rewrite last_app_cons. exact H3. }
  split; [exact E|]. split; [exact El|]. split.
  - rewrite E, Hs at 1. rewrite Hs at 2.
    rewrite drop_app_length' by (symmetry; exact L). rewrite !length_app, L. reflexivity.
  - split; [exact St|]. apply price_for_now_or_only, St.
Qed.

Lemma offer_save_percent_witness :
  contains (upper (fun c => [c]) (lit "SAVE 25%")) (lit "SAVE VS RRP")
  || contains (upper (fun c => [c]) (lit "SAVE 25%")) (lit "SAVE V RRP")
  = false
  /\ startswith (lower (lit "SAVE 25%")) (lit "save ") = true
  /\ endswith (lit "SAVE 25%") (lit "%") = true
  /\ processed_offer (fun c => [c]) (fun c => [c]) (lit "SAVE 25%") (lit "30") []
     = lit "save 25%".
Proof.
  split; [reflexivity|]. split; [reflexivity|]. split; [reflexivity|].
  destruct (offer_save_percent (fun c => [c]) (fun c => [c]) (lit "SAVE 25%") (lit "30") []
              (lit "22.50") eq_refl eq_refl eq_refl) as [-> _].
  reflexivity.
Defined.

(** X19.  A row whose offer is blank, "NA" or "N/A" in any mix of cases
    gets the offer "RRP £<rrp>" when it has an RRP text, with the status
    "RRP" (or "only" when that text holds "only"); for an RRP text
    without the letter o the status is "RRP" and the price is the pound
    sign with the RRP text.  Without an RRP text the offer, the status
    and the price are all empty. *)
Theorem offer_blank_becomes_rrp :
  forall (unicode_upper unicode_lower : N -> list N) (offer rrp saving now_val : pystr),
    offer = [] \/ upper unicode_upper offer = lit "NA"
    \/ upper unicode_upper offer = lit "N/A" ->
    let offer' := processed_offer unicode_upper unicode_lower offer rrp saving in
    let status := status_to_set unicode_upper offer' in
    (rrp = [] ->
     offer' = [] /\ status = [] /\ price_text status now_val rrp = [])
    /\ (rrp <> [] ->
        offer' = lit "RRP " ++ POUND :: rrp
        /\ (status = lit "RRP" \/ status = lit "only")
        /\ (Forall (fun c => c <> 111%N /\ c <> 79%N) rrp ->
            status = lit "RRP"
            /\ price_text status now_val rrp = POUND :: rrp)).
Proof.
  intros uu ul offer rrp saving now_val H offer' status.
  assert (E : offer' = if is_nil rrp then []
                       else lit "RRP " ++ POUND :: rrp).
  { subst offer'. unfold processed_offer. cbv zeta.
    assert (Hl : startswith (lower offer) (lit "save ") = false).
    { destruct (startswith (lower offer) (lit "save ")) eqn:Hl;
        [exfalso|reflexivity].
      destruct H as [->|[Hu|Hu]]; [discriminate Hl|..];
        apply (lower_save_not_short uu offer _ Hl Hu); simpl; lia. }
    rewrite Hl. cbn [andb].
    destruct H as [->|[Hu|Hu]]; [reflexivity|..]; rewrite Hu.
    - change (contains (lit "NA") (lit "SAVE VS RRP")
              || contains (lit "NA") (lit "SAVE V RRP")) with false.
      change (eqb (lit "NA") (lit "SAVE")) with false.
      change (eqb (lit "NA") (lit "NA")) with true.
      rewrite orb_true_r. reflexivity.
    - change (contains (lit "N/A") (lit "SAVE VS RRP")
              || contains (lit "N/A") (lit "SAVE V RRP")) with false.
      change (eqb (lit "N/A") (lit "SAVE")) with false.
      change (eqb (lit "N/A") (lit "N/A")) with true.
      rewrite orb_true_r. reflexivity. }
  subst status. rewrite E. clear E offer' H. split.
  - intros ->. repeat split; reflexivity.
  - intros Hr. destruct rrp as [|r0 rrp']; [congruence|].
    set (rrp := r0 :: rrp') in *. change (is_nil rrp) with false. cbv iota.
    split; [reflexivity|].
    assert (S : status_to_set uu (lit "RRP " ++ POUND :: rrp)
                = if contains (lit "rrp " ++ POUND :: lower rrp) (lit "only")
                  then lit "only" else lit "RRP").
    { unfold status_to_set. cbv zeta.
      change (lower (lit "RRP " ++ POUND :: rrp))
        with (lit "rrp " ++ POUND :: lower rrp).
      change (startswith (lit "rrp " ++ POUND :: lower rrp)
                (lit "save " ++ [POUND])) with false.
      change (startswith (lit "rrp " ++ POUND :: lower rrp) (lit "save "))
        with false.
      cbn [andb negb]. destruct (contains _ (lit "only")); reflexivity. }
    rewrite S. split.
    + destruct (contains _ (lit "only")); [right|left]; reflexivity.
    + intros Ho.
      change (lit "only") with (111%N :: lit "nly").
      rewrite contains_absent.
      * split; reflexivity.
      * change (lit "rrp ") with [114; 114; 112; 32]%N.
        repeat (constructor; [discriminate|]). apply lower_without_o, Ho.
Qed.

Lemma offer_blank_becomes_rrp_witness :
  (lit "n/a" = [] \/ upper (fun c => [c]) (lit "n/a") = lit "NA"
   \/ upper (fun c => [c]) (lit "n/a") = lit "N/A")
  /\ processed_offer (fun c => [c]) (fun c => [c]) (lit "n/a") (lit "30") []
     = lit "RRP " ++ POUND :: lit "30"
  /\ processed_offer (fun c => [c]) (fun c => [c]) (lit "n/a") [] [] = [].
Proof.
  split; [right; right; reflexivity|].
  split.
  - destruct (offer_blank_becomes_rrp (fun c => [c]) (fun c => [c]) (lit "n/a") (lit "30") []
                [] (or_intror (or_intror eq_refl))) as [_ H].
    destruct (H ltac:(discriminate)) as [-> _]. reflexivity.
  - destruct (offer_blank_becomes_rrp (fun c => [c]) (fun c => [c]) (lit "n/a") [] []
                [] (or_intror (or_intror eq_refl))) as [H _].
    destruct (H eq_refl) as [-> _]. reflexivity.
Defined.

Section SheetFacts.

Lemma add_column_prefix c cols : cols `prefix_of` add_column c cols.
Proof.
  unfold add_column. destruct (bool_decide _); [reflexivity|].
  apply prefix_app_r. reflexivity.
Qed.

Lemma add_column_elem c cols : c ∈ add_column c cols.
Proof.
  unfold add_column. destruct (bool_decide_reflect (c ∈ cols)) as [H|_];
    [exact H|]. apply elem_of_app. right. apply list_elem_of_singleton.
  reflexivity.
Qed.

Lemma add_column_keeps c d cols : d ∈ cols -> d ∈ add_column c cols.
Proof.
  intros H. destruct (add_column_prefix c cols) as [k ->].
  apply elem_of_app. left. exact H.
Qed.

Lemma find_fmap_label {A} (g : A -> A) (idx : Z) (rows : list (Z * A)) :
  List.find (fun ir => Z.eqb ir.1 idx) ((fun '(i, r) => (i, g r)) <$> rows)
  = (fun '(i, r) => (i, g r))
      <$> List.find (fun ir => Z.eqb ir.1 idx) rows.
Proof.
  induction rows as [|[i r] rows IH]; [reflexivity|].
  rewrite fmap_cons. cbn [List.find fst].
  destruct (Z.eqb i idx); [reflexivity|exact IH].
Qed.

Lemma truthy_some col c : truthy col = Some c -> col = Some c.
Proof.
  destruct col as [d|]; [|discriminate]. simpl.
  destruct (is_nil d); [discriminate|]. exact id.
Qed.

(** The final transformations write the Offer cell and the three derived
    cells of a row, and no other. *)
Lemma final_row_other uu ul oc sc nc rc bc dc tc zc uc row (col : pystr) :
  oc <> Some col ->
  col <> lit "Status" -> col <> lit "Price" -> col <> lit "Caveat" ->
  final_row uu ul oc sc nc rc bc dc tc zc uc row !! col = row !! col.
Proof.
  intros Ho Hs Hp Hc. unfold final_row. cbv zeta.
  rewrite !(lookup_insert_ne _ (lit "Caveat")) by congruence.
  rewrite !(lookup_insert_ne _ (lit "Price")) by congruence.
  destruct (truthy oc) as [o|] eqn:Ht.
  - apply truthy_some in Ht.
    rewrite !(lookup_insert_ne _ (lit "Status")) by congruence.
    apply lookup_insert_ne. congruence.
  - apply lookup_insert_ne. congruence.
Qed.

Lemma final_transform_cell uu ul df idx (col : pystr) :
  get_actual_column_name (df_columns df) (lit "Offer") <> Some col ->
  col <> lit "Status" -> col <> lit "Price" -> col <> lit "Caveat" ->
  cell_at (final_transform uu ul df) idx col = cell_at df idx col.
Proof.
  intros Ho Hs Hp Hc. unfold cell_at, final_transform. cbn [df_rows].
  rewrite find_fmap_label.
  destruct (List.find _ (df_rows df)) as [[i r]|]; [|reflexivity].
  cbn [fmap option_fmap option_map snd]. f_equal. unfold row_cell.
  rewrite final_row_other by assumption. reflexivity.
Qed.

Lemma found_column_name cols target (col : pystr) :
  get_actual_column_name cols target = Some col ->
  lower (strip col) = lower target.
Proof.
  unfold get_actual_column_name. intros H.
  apply List.find_some in H as [_ H]. apply eqb_true in H. exact H.
Qed.

End SheetFacts.

(** X20.  The final transformations keep the rows of a sheet, with their
    labels in the same order, so a sheet with increasing labels stays
    one; they keep its columns in place and add Status, Price and Caveat
    after them where the sheet lacks them; and they leave every cell
    outside the Offer column and these three columns as it was. *)
Theorem final_transform_keeps_the_sheet :
  forall (unicode_upper unicode_lower : N -> list N) (df : DataFrame),
    let df' := final_transform unicode_upper unicode_lower df in
    df_index df' = df_index df
    /\ (df_wf df -> df_wf df')
    /\ df_columns df `prefix_of` df_columns df'
    /\ lit "Status" ∈ df_columns df'
    /\ lit "Price" ∈ df_columns df'
    /\ lit "Caveat" ∈ df_columns df'
    /\ (forall (idx : Z) (col : pystr),
          get_actual_column_name (df_columns df) (lit "Offer") <> Some col ->
          col <> lit "Status" -> col <> lit "Price" -> col <> lit "Caveat" ->
          cell_at df' idx col = cell_at df idx col).
Proof.
  intros uu ul df df'.
  assert (I : df_index df' = df_index df).
  { unfold df_index, df', final_transform. cbn [df_rows].
    rewrite <- list_fmap_compose. apply list_fmap_ext.
    intros _ [i r] _. reflexivity. }
  split; [exact I|]. split; [unfold df_wf; rewrite I; exact id|].
  unfold df', final_transform. cbn [df_columns]. split.
  { etrans; [|apply add_column_prefix].
    etrans; [|apply add_column_prefix]. apply add_column_prefix. }
  split; [apply add_column_keeps, add_column_keeps, add_column_elem|].
  split; [apply add_column_keeps, add_column_elem|].
  split; [apply add_column_elem|].
  intros idx col. apply final_transform_cell.
Qed.

(** X21.  The columns that the final transformations read, the ones
    found for Saving, Now, RRP, Brand, Description, Type, Size and UOM,
    come out of them unchanged: the column found for a name other than
    Offer, Status, Price and Caveat keeps all its cells. *)
Theorem final_transform_keeps_input_columns :
  forall (unicode_upper unicode_lower : N -> list N) (df : DataFrame)
         (target col : pystr) (idx : Z),
    get_actual_column_name (df_columns df) target = Some col ->
    lower target <> lit "offer" -> lower target <> lit "status" ->
    lower target <> lit "price" -> lower target <> lit "caveat" ->
    cell_at (final_transform unicode_upper unicode_lower df) idx col = cell_at df idx col.
Proof.
  intros uu ul df target col idx H Ho Hs Hp Hc.
  apply found_column_name in H.
  apply final_transform_cell.
  - intros H'. apply found_column_name in H'. apply Ho.
    rewrite <- H, H'. reflexivity.
  - intros ->. apply Hs. rewrite <- H. reflexivity.
  - intros ->. apply Hp. rewrite <- H. reflexivity.
  - intros ->. apply Hc. rewrite <- H. reflexivity.
Qed.

Lemma final_transform_keeps_input_columns_witness :
  get_actual_column_name (df_columns example_df) (lit "Brand")
  = Some (lit " Brand ")
  /\ lower (lit "Brand") <> lit "offer"
  /\ cell_at (final_transform (fun c => [c]) (fun c => [c]) example_df) 5 (lit " Brand ")
     = Some (Val (lit "Kylie")).
Proof.
  split; [reflexivity|]. split; [discriminate|].
  rewrite (final_transform_keeps_input_columns (fun c => [c]) (fun c => [c]) example_df
             (lit "Brand") (lit " Brand ") 5 eq_refl);
    [reflexivity|discriminate..].
Defined.
